(** * burger-api: request dispatch and middleware composition

    A shallow embedding of [Burger] (the framework class: constructor,
    [addGlobalMiddleware], [serve] and the request handler that [serve]
    installs), with the properties of the dispatch core proved about it.

    JavaScript values are modelled as follows.
    - Arrays of middleware are mutable objects: they live in a [Heap] of
      arrays and are named by references; [slice] allocates, [reverse] and
      [push] update in place.
    - Handlers and middleware are functions in a state monad over the
      [World] a request can touch; [next] is the computation they receive.
    - The arrays are modelled twice.  In [Framework] they stand apart from
      the world, which is how the route modules under [examples/] use the
      class: their middleware and handlers hold no reference to an array.
      In [Reachable] they are part of the world, so that a middleware can
      call [addGlobalMiddleware] while a request is served.
    - The collaborators that live outside the class (route resolution, the
      route loader, the OpenAPI generator, the validator) are the fields of
      the class [Collaborators]; every property holds for any instance.
    - Replies carry the [return] statement that produced them, and a
      journal records which stages ran.
    - Every stage that is invoked returns a response: a handler or
      middleware that throws or never settles is outside the model. *)

From Stdlib Require Import String Ascii List Arith Lia.
From stdpp Require Import base option list strings gmap.
Import ListNotations.

Local Open Scope string_scope.
Local Open Scope list_scope.

(** ** State monads *)

Definition ST (S A : Type) : Type := S -> A * S.

Definition ret {S A : Type} (a : A) : ST S A := fun s => (a, s).

Definition bind {S A B : Type} (m : ST S A) (k : A -> ST S B) : ST S B :=
  fun s => let (a, s') := m s in k a s'.

Notation "x <- m ;; k" := (bind m (fun x => k))
  (at level 100, m at next level, right associativity).
Notation "m ;; k" := (bind m (fun _ => k))
  (at level 100, right associativity).

(** ** JSON values and responses *)

#[warnings="-register-all"]
Inductive Json : Type :=
| JNull
| JString (s : string)
| JNumber (n : nat)
| JArray (items : list Json)
| JObject (fields : list (string * Json)).

Inductive Body : Type :=
| JsonBody (value : Json)
| HtmlBody (markup : string).

(** The [Response] a handler resolves to. *)
Record Response : Type := { code : nat; payload : Body }.

(** [BurgerResponse]: the response builder handed to handlers.  Only the
    three methods the class uses are modelled; the status defaults to 200. *)
Record BurgerResponse : Type := { statusCode : nat }.

Definition status (c : nat) (res : BurgerResponse) : BurgerResponse :=
  {| statusCode := c |}.

Definition json (value : Json) (res : BurgerResponse) : Response :=
  {| code := statusCode res; payload := JsonBody value |}.

Definition html (markup : string) (res : BurgerResponse) : Response :=
  {| code := statusCode res; payload := HtmlBody markup |}.

(** ** Requests *)

(** [new URL(req.url)]: the transport hands over absolute URLs, so the
    request carries the parsed form. *)
Record URL : Type := { pathname : string; search : string }.

Record BurgerRequest : Type := { url : URL; method : string }.

Definition Params : Type := list (string * string).

(** [String.prototype.toUpperCase] and [toLowerCase] on the ASCII range,
    which is where HTTP method tokens live. *)
Definition upper (c : ascii) : ascii :=
  let n := nat_of_ascii c in
  if Nat.leb 97 n && Nat.leb n 122 then ascii_of_nat (n - 32) else c.

Definition lower (c : ascii) : ascii :=
  let n := nat_of_ascii c in
  if Nat.leb 65 n && Nat.leb n 90 then ascii_of_nat (n + 32) else c.

Fixpoint toUpperCase (s : string) : string :=
  match s with
  | EmptyString => EmptyString
  | String c s' => String (upper c) (toUpperCase s')
  end.

Fixpoint toLowerCase (s : string) : string :=
  match s with
  | EmptyString => EmptyString
  | String c s' => String (lower c) (toLowerCase s')
  end.

(** An ASCII lower-case letter, and a string that holds one. *)
Definition isLower (c : ascii) : bool :=
  let n := nat_of_ascii c in
  Nat.leb 97 n && Nat.leb n 122.

Fixpoint hasLower (s : string) : bool :=
  match s with
  | EmptyString => false
  | String c s' => isLower c || hasLower s'
  end.

(** ** What a request can touch *)

(** Stage entries are recorded in a journal that only the recording
    wrappers below write to. *)
Inductive Event : Type :=
| Enter (name : string)    (* the middleware [name] starts executing *)
| Next (name : string)     (* the middleware [name] invokes its [next] *)
| Handle.                  (* the terminal handler is invoked *)

Global Instance Event_eq_dec : EqDecision Event.
Proof. solve_decision. Defined.

(** ** The framework

    [App] is the application state handlers and middleware can reach,
    [Schema] the type of per-method validation schemas (zod objects in the
    route modules), [PageHandler] the type of page handlers. *)
Section Framework.

Context {App Schema PageHandler : Type}.

(** The part of the world user code reads and writes: the mutable fields
    of the request object ([req.params], [req.validated]) and the
    application state. *)
Record Session : Type := {
  params : option Params;
  validated : option Json;
  app : App
}.

Record World : Type := { session : Session; journal : list Event }.

Definition M : Type -> Type := ST World.
Definition User : Type -> Type := ST Session.

(** ** Handlers and middleware *)

Definition BurgerNext : Type := M Response.
Definition RequestHandler : Type := BurgerRequest -> BurgerResponse -> M Response.
Definition Middleware : Type :=
  BurgerRequest -> BurgerResponse -> BurgerNext -> M Response.

(** What a middleware does about [next]: invoke it, or answer itself. *)
Inductive Verdict : Type :=
| Continue
| Respond (r : Response).

(** A middleware that invokes [next] at most once per execution: it
    decides, possibly after effects of its own, either to continue the
    chain (and then may post-process the response [next] resolved to) or to
    answer itself.  Its code reaches the session, not the journal. *)
Record Gate : Type := {
  decide : BurgerRequest -> BurgerResponse -> User Verdict;
  after : Response -> User Response
}.

(** ** Arrays of middleware *)

Definition Ref : Type := nat.
Definition Heap : Type := list (list Middleware).
Definition H : Type -> Type := ST Heap.

(** ** Routes *)

Record RouteDefinition : Type := {
  path : string;
  handlers : gmap string RequestHandler;
  middleware : option Ref;
  schema : option (gmap string Schema)
}.

Record ApiRouter : Type := {
  apiDir : string;
  prefix : string;
  routes : list RouteDefinition
}.

Record Page : Type := { pagePath : string; pageHandler : PageHandler }.

Record PageRouter : Type := {
  pageDir : string;
  pagePrefix : string;
  pages : list Page
}.

Record ServerOptions : Type := {
  optApiDir : option string;
  optPageDir : option string;
  optGlobalMiddleware : option (list Middleware)
}.

Record Burger : Type := {
  options : ServerOptions;
  apiRouter : option ApiRouter;
  pageRouter : option PageRouter;
  globalMiddleware : Ref
}.

(** Which [return] of the request handler produced the response. *)
Inductive Reply : Type :=
| OpenApiDocument (r : Response)
| RouterNotConfigured (r : Response)
| SwaggerUi (r : Response)
| RouteNotFound (r : Response)
| MethodNotAllowed (r : Response)
| Completed (r : Response)
| Greeting (r : Response)
| TypeError.      (* [this.apiRouter!.resolve] on an undefined router *)

(** A request is served against the arrays and the world. *)
Definition Machine : Type := Heap * World.
Definition D : Type -> Type := ST Machine.

(** What [Server.start] receives. *)
Record Listening : Type := {
  staticRoutes : option (gmap string PageHandler);
  fetch : BurgerRequest -> BurgerResponse -> D Reply;
  port : nat
}.

(** ** Collaborators outside the class *)

(** The validator's verdict: normalized data or a description of the failed
    fields. *)
Inductive Validation : Type :=
| Valid (data : Json)
| Invalid (errors : Json).

(** What the class imports and this file does not define:
    - [resolve]: [ApiRouter.resolve], the matched route, if any, and the
      extracted parameters;
    - [loadRoutes]: [ApiRouter.loadRoutes], which imports the route modules,
      whose exported [middleware] arrays are allocated on the way;
    - [loadPages]: [PageRouter.loadPages];
    - [generateOpenAPIDocument] and [swaggerHtml], from the documentation
      modules;
    - [validate]: the validator capability, applied to a schema and the
      request. *)
Class Collaborators : Type := {
  resolve : ApiRouter -> BurgerRequest -> option RouteDefinition * Params;
  loadRoutes : ApiRouter -> H ApiRouter;
  loadPages : PageRouter -> PageRouter;
  generateOpenAPIDocument : ApiRouter -> ServerOptions -> Json;
  swaggerHtml : string;
  validate : Schema -> BurgerRequest -> User Validation
}.

Context {env : Collaborators}.

(** ** The world monad *)

Definition lift {A : Type} (u : User A) : M A :=
  fun w => let (a, s) := u (session w) in
           (a, {| session := s; journal := journal w |}).

Definition emit (e : Event) : M unit :=
  fun w => (tt, {| session := session w; journal := journal w ++ [e] |}).

(** [req.params = params] *)
Definition setParams (ps : Params) : User unit :=
  fun s => (tt, {| params := Some ps; validated := validated s; app := app s |}).

(** [req.validated = data] *)
Definition setValidated (data : Json) : User unit :=
  fun s => (tt, {| params := params s; validated := Some data; app := app s |}).

(** ** Recording middleware *)

(** [observe name g] is the middleware that behaves as [g] and records in
    the journal when it starts and when it invokes [next]. *)
Definition observe (name : string) (g : Gate) : Middleware :=
  fun req res next =>
    emit (Enter name) ;;
    v <- lift (decide g req res) ;;
    match v with
    | Continue => emit (Next name) ;; r <- next ;; lift (after g r)
    | Respond r => ret r
    end.

(** A handler that records its invocation. *)
Definition observed (body : BurgerRequest -> BurgerResponse -> User Response)
    : RequestHandler :=
  fun req res => emit Handle ;; lift (body req res).

(** [async (req, res, next) => { effects; return next() }] *)
Definition passing (effects : BurgerRequest -> BurgerResponse -> User unit) : Gate :=
  {| decide := fun req res => effects req res ;; ret Continue; after := ret |}.

(** [async (req, res, next) => { return answer }], never calling [next] *)
Definition replying (answer : BurgerRequest -> BurgerResponse -> User Response) : Gate :=
  {| decide := fun req res => r <- answer req res ;; ret (Respond r); after := ret |}.

(** ** Operations on arrays *)

(** The elements of the array at [a]; a reference to no array reads as
    empty. *)
Definition deref (heap : Heap) (a : Ref) : list Middleware :=
  default [] (heap !! a).

(** [[]] / an array literal *)
Definition alloc (items : list Middleware) : H Ref :=
  fun heap => (length heap, heap ++ [items]).

(** [a.length] *)
Definition len (a : Ref) : H nat :=
  fun heap => (length (deref heap a), heap).

(** [a.slice()]: a fresh array with the same elements *)
Definition slice (a : Ref) : H Ref :=
  fun heap => alloc (deref heap a) heap.

(** [a.reverse()]: reverses [a] in place and returns [a] *)
Definition reverse (a : Ref) : H Ref :=
  fun heap => (a, <[a := rev (deref heap a)]> heap).

(** [a.push(mw)] *)
Definition push (a : Ref) (mw : Middleware) : H unit :=
  fun heap => (tt, <[a := deref heap a ++ [mw]]> heap).

(** The elements a [for (const mw of a)] loop visits. *)
Definition elements (a : Ref) : H (list Middleware) :=
  fun heap => (deref heap a, heap).

(** ** Validation *)

(** Modelled from the spec: [createValidationMiddleware] of
    [@middleware/validator.js] is not among the sources.  It looks up the
    schema of the request's method (the route modules key schemas by the
    lower-case method); without one it passes straight through; otherwise
    it invokes the validator, on success attaches the data to the request
    as [validated] and calls [next], on failure answers with a
    client-error response without calling [next].  Its execution is
    recorded in the journal under the name [validation]. *)
Definition validationGate (s : Schema) : Gate :=
  {| decide := fun req res =>
       v <- validate s req ;;
       match v with
       | Valid data => setValidated data ;; ret Continue
       | Invalid errors => ret (Respond (json errors (status 400 res)))
       end;
     after := ret |}.

(** Modelled from the spec: the middleware [createValidationMiddleware]
    returns for a route's schema object; see [validationGate]. *)
Definition createValidationMiddleware (sch : gmap string Schema) : Middleware :=
  fun req res next =>
    match sch !! toLowerCase (method req) with
    | None => next
    | Some s => observe "validation" (validationGate s) req res next
    end.

(** ** The class *)

(** [if (options.apiDir)]: an empty string is falsy. *)
Definition truthy (dir : option string) : option string :=
  match dir with
  | Some d => if String.eqb d "" then None else Some d
  | None => None
  end.

Definition addGlobalMiddleware (this : Burger) (mw : Middleware) : H unit :=
  push (globalMiddleware this) mw.

Fixpoint forEach {S A : Type} (items : list A) (f : A -> ST S unit) : ST S unit :=
  match items with
  | [] => ret tt
  | x :: rest => f x ;; forEach rest f
  end.

Definition constructor (opts : ServerOptions) : H Burger :=
  arr <- alloc [] ;;
  let this := {|
    options := opts;
    apiRouter :=
      match truthy (optApiDir opts) with
      | Some dir => Some {| apiDir := dir; prefix := "api"; routes := [] |}
      | None => None
      end;
    pageRouter :=
      match truthy (optPageDir opts) with
      | Some dir => Some {| pageDir := dir; pagePrefix := ""; pages := [] |}
      | None => None
      end;
    globalMiddleware := arr
  |} in
  match optGlobalMiddleware opts with
  | Some mws => forEach mws (fun mw => addGlobalMiddleware this mw)
  | None => ret tt
  end ;;
  ret this.

Definition response (reply : Reply) : option Response :=
  match reply with
  | OpenApiDocument r | RouterNotConfigured r | SwaggerUi r | RouteNotFound r
  | MethodNotAllowed r | Completed r | Greeting r => Some r
  | TypeError => None
  end.

Definition onHeap {A : Type} (h : H A) : D A :=
  fun m => let (a, heap) := h (fst m) in (a, (heap, snd m)).

Definition onWorld {A : Type} (c : M A) : D A :=
  fun m => let (a, w) := c (snd m) in (a, (fst m, w)).

(** The loop
    [for (const mw of mws) { const next = chain; chain = async () => mw(req, res, next) }] *)
Definition wrap (req : BurgerRequest) (res : BurgerResponse)
    (mws : list Middleware) (chain : BurgerNext) : BurgerNext :=
  fold_left (fun chain mw => let next := chain in mw req res next) mws chain.

(** [for (const mw of a.slice().reverse()) ...] *)
Definition wrapReversedCopy (req : BurgerRequest) (res : BurgerResponse)
    (a : Ref) (chain : BurgerNext) : H BurgerNext :=
  copy <- slice a ;;
  reversed <- reverse copy ;;
  mws <- elements reversed ;;
  ret (wrap req res mws chain).

(** The body of the 500 response of the [/openapi.json] branch. *)
Definition notConfigured : Json :=
  JObject [("error", JString "API Router not configured");
           ("message", JString "Please provide an apiDir option when initializing the Burger instance to enable OpenAPI documentation.")].

(** The request handler [serve] passes to the server when an API router
    exists. *)
Definition handleRequest (this : Burger) (req : BurgerRequest) (res : BurgerResponse)
    : D Reply :=
  let url := url req in
  if String.eqb (pathname url) "/openapi.json" then
    match apiRouter this with
    | Some router =>
        let doc := generateOpenAPIDocument router (options this) in
        ret (OpenApiDocument (json doc res))
    | None =>
        ret (RouterNotConfigured (json notConfigured (status 500 res)))
    end
  else if String.eqb (pathname url) "/docs" then
    ret (SwaggerUi (html swaggerHtml res))
  else
    match apiRouter this with
    | None => ret TypeError
    | Some router =>
        let '(route, ps) := resolve router req in
        match route with
        | None =>
            ret (RouteNotFound
                   (json (JObject [("error", JString "Route not found")])
                         (status 404 res)))
        | Some route =>
            onWorld (lift (setParams ps)) ;;
            let method := toUpperCase (method req) in
            match (handlers route !! method : option RequestHandler) with
            | None =>
                ret (MethodNotAllowed
                       (json (JObject [("error", JString "Method Not Allowed")])
                             (status 405 res)))
            | Some handler =>
                (* 1. the route-specific chain *)
                let routeChain : BurgerNext := handler req res in
                routeChain <-
                  match middleware route with
                  | Some a =>
                      n <- onHeap (len a) ;;
                      if Nat.ltb 0 n
                      then onHeap (wrapReversedCopy req res a routeChain)
                      else ret routeChain
                  | None => ret routeChain
                  end ;;
                (* 2. validation, if the route has a schema *)
                let composedChain : BurgerNext :=
                  match schema route with
                  | Some sch =>
                      let validationMw := createValidationMiddleware sch in
                      validationMw req res routeChain
                  | None => routeChain
                  end in
                (* 3. global middleware *)
                n <- onHeap (len (globalMiddleware this)) ;;
                finalHandler <-
                  (if Nat.ltb 0 n
                   then onHeap (wrapReversedCopy req res (globalMiddleware this)
                                  composedChain)
                   else ret composedChain) ;;
                (* 4. run the chain *)
                r <- onWorld finalHandler ;;
                ret (Completed r)
            end
        end
    end.

(** The fallback handler [serve] installs without an API router. *)
Definition fallback (_ : BurgerRequest) (res : BurgerResponse) : D Reply :=
  ret (Greeting (json (JObject [("message", JString "Hello from burger-api!")])
                      (status 200 res))).

Definition pageRoutes (router : option PageRouter) : gmap string PageHandler :=
  match router with
  | Some pr =>
      fold_left (fun routes page => <[pagePath page := pageHandler page]> routes)
                (pages (loadPages pr)) ∅
  | None => ∅
  end.

Definition serve (this : Burger) (port : nat) : H Listening :=
  let routes := pageRoutes (pageRouter this) in
  match apiRouter this with
  | Some router =>
      loaded <- loadRoutes router ;;
      let this := {| options := options this; apiRouter := Some loaded;
                     pageRouter := pageRouter this;
                     globalMiddleware := globalMiddleware this |} in
      ret {| staticRoutes := Some routes; fetch := handleRequest this; port := port |}
  | None =>
      ret {| staticRoutes := None; fetch := fallback; port := port |}
  end.

(** ** The chain, first stage outermost *)

(** [nest req res [m1; ...; mn] k] is [m1] given as [next] the chain of
    [m2 ... mn] ending in [k]. *)
Fixpoint nest (req : BurgerRequest) (res : BurgerResponse)
    (mws : list Middleware) (k : BurgerNext) : BurgerNext :=
  match mws with
  | [] => k
  | mw :: rest => mw req res (nest req res rest k)
  end.

(** The route's own middleware, as the loop sees it. *)
Definition declared (heap : Heap) (route : RouteDefinition) : list Middleware :=
  match middleware route with
  | Some a => deref heap a
  | None => []
  end.

(** Stage 2 of the composition. *)
Definition guarded (route : RouteDefinition) (req : BurgerRequest)
    (res : BurgerResponse) (k : BurgerNext) : BurgerNext :=
  match schema route with
  | Some sch => createValidationMiddleware sch req res k
  | None => k
  end.

(** The arrays a request leaves behind: the reversed copies. *)
Definition copyOf (mws : list Middleware) : Heap :=
  match mws with
  | [] => []
  | _ => [rev mws]
  end.

(** The world once [req.params] is set. *)
Definition withParams (ps : Params) (w : World) : World :=
  snd (lift (setParams ps) w).

(** ** Chains of recording middleware *)

Definition observes (gates : list (string * Gate)) : list Middleware :=
  map (fun ng => observe (fst ng) (snd ng)) gates.

Definition names (gates : list (string * Gate)) : list string := map fst gates.

(** The journal of stages that ran and invoked [next]. *)
Definition passed (ns : list string) : list Event :=
  flat_map (fun n => [Enter n; Next n]) ns.

(** A gate that returns what [next] resolved to, untouched. *)
Definition forwards (g : Gate) : Prop := forall r s, after g r s = (r, s).

(** A gate that invokes [next] whatever state it finds. *)
Definition continues (req : BurgerRequest) (res : BurgerResponse) (g : Gate) : Prop :=
  forall s, fst (decide g req res s) = Continue.

(** What the journal gained between two worlds. *)
Definition recorded (before after : World) : list Event :=
  drop (length (journal before)) (journal after).

(** The validation stage of a route for a request, as a chain segment. *)
Definition validationStage (route : RouteDefinition) (req : BurgerRequest)
    : list (string * Gate) :=
  match schema route with
  | Some sch =>
      match sch !! toLowerCase (method req) with
      | Some s => [("validation", validationGate s)]
      | None => []
      end
  | None => []
  end.

(** The stages of a request, in the order the chain nests them. *)
Definition stages (globals : list (string * Gate)) (route : RouteDefinition)
    (req : BurgerRequest) (routeGates : list (string * Gate)) : list (string * Gate) :=
  globals ++ validationStage route req ++ routeGates.

(** ** Responses of the dispatcher outside the chain *)

Definition routeNotFound : Response :=
  {| code := 404; payload := JsonBody (JObject [("error", JString "Route not found")]) |}.

Definition methodNotAllowed : Response :=
  {| code := 405; payload := JsonBody (JObject [("error", JString "Method Not Allowed")]) |}.

End Framework.

Arguments Session : clear implicits.
Arguments World : clear implicits.
Arguments M : clear implicits.
Arguments User : clear implicits.
Arguments BurgerNext : clear implicits.
Arguments RequestHandler : clear implicits.
Arguments Middleware : clear implicits.
Arguments Gate : clear implicits.
Arguments Heap : clear implicits.
Arguments H : clear implicits.
Arguments RouteDefinition : clear implicits.
Arguments ApiRouter : clear implicits.
Arguments Page : clear implicits.
Arguments PageRouter : clear implicits.
Arguments ServerOptions : clear implicits.
Arguments Burger : clear implicits.
Arguments Machine : clear implicits.
Arguments D : clear implicits.
Arguments Listening : clear implicits.
Arguments Collaborators : clear implicits.

(** ** Arrays within reach of the code a request runs

    [addGlobalMiddleware] is public, and a route module's [middleware]
    array is an export: a handler or a middleware can write to them while a
    request is served.  Here the arrays are part of the world the chain
    runs in.  They hold references to function objects, written as names,
    and [code] gives the function a name refers to; the handler is the one
    of [Framework], with its array operations acting on that world. *)
Module Reachable.

Section Handler.

Context {U Schema PageHandler : Type}.

(** A reference to a function object. *)
Definition Fn : Type := string.

(** The application state together with the arrays. *)
Record Shared : Type := { arrays : list (list Fn); state : U }.

Definition arraysOf (w : World Shared) : list (list Fn) :=
  arrays (app (session w)).

Definition setArrays (arrs : list (list Fn)) (w : World Shared) : World Shared :=
  {| session := {| params := params (session w);
                   validated := validated (session w);
                   app := {| arrays := arrs; state := state (app (session w)) |} |};
     journal := journal w |}.

(** An operation on the arrays, run in the world. *)
Definition onArrays {A : Type} (op : ST (list (list Fn)) A) : M Shared A :=
  fun w => let (a, arrs) := op (arraysOf w) in (a, setArrays arrs w).

(** The elements of the array at [a]; a reference to no array reads as
    empty. *)
Definition deref (arrs : list (list Fn)) (a : Ref) : list Fn :=
  default [] (arrs !! a).

(** [a.length] *)
Definition len (a : Ref) : ST (list (list Fn)) nat :=
  fun arrs => (length (deref arrs a), arrs).

(** [a.slice()]: a fresh array with the same elements *)
Definition slice (a : Ref) : ST (list (list Fn)) Ref :=
  fun arrs => (length arrs, arrs ++ [deref arrs a]).

(** [a.reverse()]: reverses [a] in place and returns [a] *)
Definition reverse (a : Ref) : ST (list (list Fn)) Ref :=
  fun arrs => (a, <[a := rev (deref arrs a)]> arrs).

(** [a.push(f)] *)
Definition push (a : Ref) (f : Fn) : ST (list (list Fn)) unit :=
  fun arrs => (tt, <[a := deref arrs a ++ [f]]> arrs).

(** The elements a [for (const mw of a)] loop visits. *)
Definition elements (a : Ref) : ST (list (list Fn)) (list Fn) :=
  fun arrs => (deref arrs a, arrs).

Context {env : Collaborators Shared Schema PageHandler}.

(** The function object a name refers to. *)
Context (code : Fn -> Middleware Shared).

Definition addGlobalMiddleware (this : Burger Shared Schema PageHandler) (f : Fn)
    : M Shared unit :=
  onArrays (push (globalMiddleware this) f).

(** The loop
    [for (const mw of mws) { const next = chain; chain = async () => mw(req, res, next) }] *)
Definition wrap (req : BurgerRequest) (res : BurgerResponse)
    (fns : list Fn) (chain : BurgerNext Shared) : BurgerNext Shared :=
  fold_left (fun chain f => let next := chain in code f req res next) fns chain.

(** [for (const mw of a.slice().reverse()) ...] *)
Definition wrapReversedCopy (req : BurgerRequest) (res : BurgerResponse)
    (a : Ref) (chain : BurgerNext Shared) : M Shared (BurgerNext Shared) :=
  copy <- onArrays (slice a) ;;
  reversed <- onArrays (reverse copy) ;;
  fns <- onArrays (elements reversed) ;;
  ret (wrap req res fns chain).

(** The request handler [serve] passes to the server when an API router
    exists. *)
Definition handleRequest (this : Burger Shared Schema PageHandler)
    (req : BurgerRequest) (res : BurgerResponse) : M Shared Reply :=
  let url := url req in
  if String.eqb (pathname url) "/openapi.json" then
    match apiRouter this with
    | Some router =>
        let doc := generateOpenAPIDocument router (options this) in
        ret (OpenApiDocument (json doc res))
    | None =>
        ret (RouterNotConfigured (json notConfigured (status 500 res)))
    end
  else if String.eqb (pathname url) "/docs" then
    ret (SwaggerUi (html swaggerHtml res))
  else
    match apiRouter this with
    | None => ret TypeError
    | Some router =>
        let '(route, ps) := resolve router req in
        match route with
        | None =>
            ret (RouteNotFound
                   (json (JObject [("error", JString "Route not found")])
                         (status 404 res)))
        | Some route =>
            lift (setParams ps) ;;
            let method := toUpperCase (method req) in
            match (handlers route !! method : option (RequestHandler Shared)) with
            | None =>
                ret (MethodNotAllowed
                       (json (JObject [("error", JString "Method Not Allowed")])
                             (status 405 res)))
            | Some handler =>
                (* 1. the route-specific chain *)
                let routeChain : BurgerNext Shared := handler req res in
                routeChain <-
                  match middleware route with
                  | Some a =>
                      n <- onArrays (len a) ;;
                      if Nat.ltb 0 n
                      then wrapReversedCopy req res a routeChain
                      else ret routeChain
                  | None => ret routeChain
                  end ;;
                (* 2. validation, if the route has a schema *)
                let composedChain : BurgerNext Shared :=
                  match schema route with
                  | Some sch =>
                      let validationMw := createValidationMiddleware sch in
                      validationMw req res routeChain
                  | None => routeChain
                  end in
                (* 3. global middleware *)
                n <- onArrays (len (globalMiddleware this)) ;;
                finalHandler <-
                  (if Nat.ltb 0 n
                   then wrapReversedCopy req res (globalMiddleware this) composedChain
                   else ret composedChain) ;;
                (* 4. run the chain *)
                r <- finalHandler ;;
                ret (Completed r)
            end
        end
    end.

(** ** The chain, first stage outermost *)

(** The route's own middleware, as the loop sees it. *)
Definition declared (arrs : list (list Fn))
    (route : RouteDefinition Shared Schema) : list Fn :=
  match middleware route with
  | Some a => deref arrs a
  | None => []
  end.

(** The arrays a request leaves behind: the reversed copies. *)
Definition copyOf (fns : list Fn) : list (list Fn) :=
  match fns with
  | [] => []
  | _ => [rev fns]
  end.

(** The chain of a matched request, composed from the arrays [arrs]. *)
Definition chainOf (arrs : list (list Fn)) (this : Burger Shared Schema PageHandler)
    (route : RouteDefinition Shared Schema) (handler : RequestHandler Shared)
    (req : BurgerRequest) (res : BurgerResponse) : BurgerNext Shared :=
  nest req res (map code (deref arrs (globalMiddleware this)))
    (guarded route req res
       (nest req res (map code (declared arrs route)) (handler req res))).

(** ** What code does to the arrays *)

(** Every array of [before] is in [after], with the same elements. *)
Definition extends (before after : list (list Fn)) : Prop :=
  forall a fns, before !! a = Some fns -> after !! a = Some fns.

(** A computation that leaves the arrays it finds as they are. *)
Definition keeps {A : Type} (c : M Shared A) : Prop :=
  forall w, extends (arraysOf w) (arraysOf (snd (c w))).

(** A middleware that leaves the arrays as they are, as far as the rest
    of the chain does. *)
Definition respectful (mw : Middleware Shared) : Prop :=
  forall req res next, keeps next -> keeps (mw req res next).

(** The code the request [req] can run — the global middleware and the
    matched route's middleware held in [arrs], the validator, and the
    handler for the request's method — leaves the arrays as they are. *)
Definition tame (this : Burger Shared Schema PageHandler)
    (req : BurgerRequest) (res : BurgerResponse) (arrs : list (list Fn)) : Prop :=
  (forall f, In f (deref arrs (globalMiddleware this)) -> respectful (code f))
  /\ (forall router route ps,
        apiRouter this = Some router ->
        resolve router req = (Some route, ps) ->
        (forall f, In f (declared arrs route) -> respectful (code f))
        /\ (forall handler : RequestHandler Shared,
              handlers route !! toUpperCase (method req) = Some handler ->
              keeps (handler req res)))
  /\ (forall s, keeps (lift (validate s req))).

End Handler.

Arguments Shared : clear implicits.

End Reachable.

(** ** Path resolution *)

(** [s.split(sep)] *)
Fixpoint split (sep : ascii) (s : string) : list string :=
  match s with
  | EmptyString => [EmptyString]
  | String c rest =>
      if Ascii.eqb c sep then EmptyString :: split sep rest
      else match split sep rest with
           | seg :: segs => String c seg :: segs
           | [] => [String c EmptyString]
           end
  end.

(** Modelled from the spec: one pattern against one path, segment by
    segment; a [:name] segment binds any non-empty segment, a literal
    segment matches itself, and both lists must end together. *)
Fixpoint matchSegments (pattern segments : list string) : option Params :=
  match pattern, segments with
  | [], [] => Some []
  | p :: pattern', s :: segments' =>
      match p with
      | String ":" name =>
          if String.eqb s "" then None
          else option_map (cons (name, s)) (matchSegments pattern' segments')
      | _ => if String.eqb p s then matchSegments pattern' segments' else None
      end
  | _, _ => None
  end.

(** Modelled from the spec: [ApiRouter.resolve] of [@core/api-router.js] is
    not among the sources.  The request path is compared segment by segment
    with every pattern, in table order; a [:name] segment matches any
    non-empty segment and binds it; all segments of both must be consumed;
    without a match there is no route and no parameter. *)
Fixpoint resolveIn {App Schema : Type} (table : list (RouteDefinition App Schema))
    (segments : list string) : option (RouteDefinition App Schema) * Params :=
  match table with
  | [] => (None, [])
  | route :: rest =>
      match matchSegments (split "/" (path route)) segments with
      | Some ps => (Some route, ps)
      | None => resolveIn rest segments
      end
  end.

Definition resolveBySegments {App Schema : Type} (router : ApiRouter App Schema)
    (req : BurgerRequest) : option (RouteDefinition App Schema) * Params :=
  resolveIn (routes router) (split "/" (pathname (url req))).

(** ** A product API

    An instance after the route modules under [examples/]: a product
    route with a schema for [get], logging middleware, and handlers that
    log their invocation to the console. *)
Module Demo.

(** The console. *)
Definition App : Type := list string.

(** A schema parses the request's parameters. *)
Definition Schema : Type := option Params -> Validation.

Definition log (line : string) : User App unit :=
  fun s => (tt, {| params := params s; validated := validated s;
                   app := app s ++ [line] |}).

Definition parse (s : Schema) (_ : BurgerRequest) : User App Validation :=
  fun session => (s (params session), session).

Definition isDigit (c : ascii) : bool :=
  Nat.leb 48 (nat_of_ascii c) && Nat.leb (nat_of_ascii c) 57.

Fixpoint allDigits (s : string) : bool :=
  match s with
  | EmptyString => true
  | String c rest => isDigit c && allDigits rest
  end.

(** [params: z.object({ id: ... z.number().min(1, "ID is required") })] *)
Definition idSchema : Schema :=
  fun ps =>
    match ps with
    | Some [("id", v)] =>
        if negb (String.eqb v "") && allDigits v && negb (String.eqb v "0")
        then Valid (JObject [("params", JObject [("id", JString v)])])
        else Invalid (JObject [("errors", JString "ID is required")])
    | _ => Invalid (JObject [("errors", JString "ID is required")])
    end.

Definition logger (line : string) : Gate App :=
  passing (fun _ _ => log line).

Definition unauthorized : Response :=
  {| code := 401; payload := JsonBody (JObject [("error", JString "Unauthorized")]) |}.

Definition blocker : Gate App :=
  replying (fun _ res => ret (json (JObject [("error", JString "Unauthorized")])
                                   (status 401 res))).

Definition product (req : BurgerRequest) (res : BurgerResponse) : User App Response :=
  log "[GET] Product Detail route invoked" ;;
  fun s => (json (JObject [("id", default JNull (validated s));
                           ("name", JString "Sample Product")]) res, s).

Definition create (req : BurgerRequest) (res : BurgerResponse) : User App Response :=
  log "[POST] Products route invoked" ;;
  ret (json (JObject [("created", JString "yes")]) res).

Definition productRoute : RouteDefinition App Schema :=
  {| path := "/api/products/:id";
     handlers := <["GET" := observed product]> (<["POST" := observed create]> ∅);
     middleware := Some 1;
     schema := Some (<["get" := idSchema]> ∅) |}.

Definition router : ApiRouter App Schema :=
  {| apiDir := "api"; prefix := "api"; routes := [productRoute] |}.

Definition opts : ServerOptions App :=
  {| optApiDir := Some "api"; optPageDir := None; optGlobalMiddleware := None |}.

Definition burger : Burger App Schema unit :=
  {| options := opts; apiRouter := Some router; pageRouter := None;
     globalMiddleware := 0 |}.

Definition openapi (_ : ApiRouter App Schema) (_ : ServerOptions App) : Json :=
  JObject [("openapi", JString "3.0.0")].

Definition swagger : string := "<!DOCTYPE html>".

Definition preloaded (r : ApiRouter App Schema) : H App (ApiRouter App Schema) :=
  ret r.

Definition noPages (r : PageRouter unit) : PageRouter unit := r.

#[global] Instance collaborators : Collaborators App Schema unit :=
  {| resolve := resolveBySegments;
     loadRoutes := preloaded;
     loadPages := noPages;
     generateOpenAPIDocument := openapi;
     swaggerHtml := swagger;
     validate := parse |}.

Definition handle := handleRequest (env := collaborators).

Definition res0 : BurgerResponse := {| statusCode := 200 |}.

Definition request (m p : string) : BurgerRequest :=
  {| url := {| pathname := p; search := "" |}; method := m |}.

Definition idle : World App :=
  {| session := {| params := None; validated := None; app := [] |}; journal := [] |}.

(** Global middleware [A, B], route middleware [C, D]. *)
Definition heapABCD (B : Gate App) : Heap App :=
  [[observe "A" (logger "A"); observe "B" B];
   [observe "C" (logger "Product Detail Middleware"); observe "D" (logger "D")]].

Definition start := serve (env := collaborators).

(** [async (req, res, next) => { await next(); return next() }] *)
Definition retrying (name : string) : Middleware App :=
  fun req res next =>
    emit (Enter name) ;;
    emit (Next name) ;;
    _ <- next ;;
    emit (Next name) ;;
    next.

(** Global middleware [retry], no route middleware. *)
Definition heapRetry : Heap App := [[retrying "retry"]; []].

Definition get42 : BurgerRequest := request "get" "/api/products/42".
Definition post42 : BurgerRequest := request "post" "/api/products/42".

(** No global middleware, no route middleware. *)
Definition heapBare : Heap App := [[]; []].

(** A route module that exports its handler as [get]. *)
Definition lowerRoute : RouteDefinition App Schema :=
  {| path := "/api/lower";
     handlers := <["get" := observed product]> ∅;
     middleware := None;
     schema := None |}.

Definition lowerBurger : Burger App Schema unit :=
  {| options := opts;
     apiRouter := Some {| apiDir := "api"; prefix := "api"; routes := [lowerRoute] |};
     pageRouter := None;
     globalMiddleware := 0 |}.

(** A loader that imports the product route module: its [middleware]
    array is allocated, and the table holds the route. *)
Definition importing (r : ApiRouter App Schema) : H App (ApiRouter App Schema) :=
  alloc [observe "C" (logger "Product Detail Middleware"); observe "D" (logger "D")] ;;
  ret {| apiDir := apiDir r; prefix := prefix r; routes := [productRoute] |}.

Definition importingCollaborators : Collaborators App Schema unit :=
  {| resolve := resolveBySegments;
     loadRoutes := importing;
     loadPages := noPages;
     generateOpenAPIDocument := openapi;
     swaggerHtml := swagger;
     validate := parse |}.

(** [new Burger({ apiDir: "api", globalMiddleware: [A, B] })] *)
Definition withGlobals : ServerOptions App :=
  {| optApiDir := Some "api"; optPageDir := None;
     optGlobalMiddleware := Some [observe "A" (logger "A"); observe "B" (logger "B")] |}.

(** [new Burger({ apiDir: "", pageDir: "pages" })] *)
Definition pagesOnly : ServerOptions App :=
  {| optApiDir := Some ""; optPageDir := Some "pages"; optGlobalMiddleware := None |}.

End Demo.

(** ** An API whose middleware registers middleware

    One route, [/api/ping], with middleware of its own and a schema, and
    a global middleware that calls [addGlobalMiddleware] on the instance
    while a request is served. *)
Module Registrar.

(** The arrays, and nothing else. *)
Definition App : Type := Reachable.Shared unit.

Definition Schema : Type := unit.

Definition pong (req : BurgerRequest) (res : BurgerResponse) : User App Response :=
  ret (json (JObject [("message", JString "pong")]) res).

Definition pingRoute : RouteDefinition App Schema :=
  {| path := "/api/ping";
     handlers := <["GET" := observed pong]> ∅;
     middleware := Some 1;
     schema := Some (<["get" := tt]> ∅) |}.

Definition router : ApiRouter App Schema :=
  {| apiDir := "api"; prefix := "api"; routes := [pingRoute] |}.

Definition opts : ServerOptions App :=
  {| optApiDir := Some "api"; optPageDir := None; optGlobalMiddleware := None |}.

Definition burger : Burger App Schema unit :=
  {| options := opts; apiRouter := Some router; pageRouter := None;
     globalMiddleware := 0 |}.

Definition accept (_ : Schema) (_ : BurgerRequest) : User App Validation :=
  ret (Valid JNull).

Definition collaborators : Collaborators App Schema unit :=
  {| resolve := resolveBySegments;
     loadRoutes := ret;
     loadPages := fun r => r;
     generateOpenAPIDocument := fun _ _ => JObject [("openapi", JString "3.0.0")];
     swaggerHtml := "<!DOCTYPE html>";
     validate := accept |}.

(** [async (req, res, next) => { return next() }] *)
Definition plain (name : string) : Middleware App :=
  observe name (passing (fun _ _ => ret tt)).

(** [async (req, res, next) => { app.addGlobalMiddleware(f); return next() }] *)
Definition registering (name : string) (f : Reachable.Fn) : Middleware App :=
  fun req res next =>
    emit (Enter name) ;;
    Reachable.addGlobalMiddleware burger f ;;
    emit (Next name) ;;
    next.

(** The functions behind the names: [A] registers [E]; every other name
    is a middleware that only calls [next]. *)
Definition code (f : Reachable.Fn) : Middleware App :=
  if String.eqb f "A" then registering "A" "E" else plain f.

(** The same names, none of them writing to an array. *)
Definition quiet (f : Reachable.Fn) : Middleware App := plain f.

Definition handle := Reachable.handleRequest (env := collaborators).

Definition ping : BurgerRequest :=
  {| url := {| pathname := "/api/ping"; search := "" |}; method := "GET" |}.

Definition res0 : BurgerResponse := {| statusCode := 200 |}.

(** Global middleware [A, B], route middleware [C, D]. *)
Definition idle : World App :=
  {| session := {| params := None; validated := None;
                   app := {| Reachable.arrays := [["A"; "B"]; ["C"; "D"]];
                             Reachable.state := tt |} |};
     journal := [] |}.

End Registrar.

(** * Properties *)

Section Properties.

Context {App Schema PageHandler : Type} {env : Collaborators App Schema PageHandler}.

Implicit Types (this : Burger App Schema PageHandler).
Implicit Types (router : ApiRouter App Schema) (route : RouteDefinition App Schema).
Implicit Types (req : BurgerRequest) (res : BurgerResponse) (ps : Params).
Implicit Types (heap : Heap App) (w : World App).
Implicit Types (k next : BurgerNext App) (mws items : list (Middleware App)).
Implicit Types (g : Gate App) (gates globals routeGates : list (string * Gate App)).
Implicit Types (body : BurgerRequest -> BurgerResponse -> User App Response).
Implicit Types (n name : string) (ns : list string).

(** ** Running the monads *)

Lemma bind_run {S A B : Type} (m : ST S A) (k : A -> ST S B) (s : S) :
  bind m k s = k (fst (m s)) (snd (m s)).
Proof. unfold bind. now destruct (m s). Qed.

Lemma ret_run {S A : Type} (a : A) (s : S) : ret a s = (a, s).
Proof. reflexivity. Qed.

Lemma lift_run {A : Type} (u : User App A) (w : World App) :
  lift u w = (fst (u (session w)),
              {| session := snd (u (session w)); journal := journal w |}).
Proof. unfold lift. now destruct (u (session w)). Qed.

Lemma emit_run (e : Event) (w : World App) :
  emit e w = (tt, {| session := session w; journal := journal w ++ [e] |}).
Proof. reflexivity. Qed.

Lemma onHeap_run {A : Type} (h : H App A) (m : Machine App) :
  onHeap h m = (fst (h (fst m)), (snd (h (fst m)), snd m)).
Proof. unfold onHeap. now destruct (h (fst m)). Qed.

Lemma onWorld_run {A : Type} (c : M App A) (m : Machine App) :
  onWorld c m = (fst (c (snd m)), (fst m, snd (c (snd m)))).
Proof. unfold onWorld. now destruct (c (snd m)). Qed.

Lemma len_run a (heap : Heap App) : len a heap = (length (deref heap a), heap).
Proof. reflexivity. Qed.

(** ** The loops build the nested chain *)

Lemma wrap_rev req res (mws : list (Middleware App)) k :
  wrap req res (rev mws) k = nest req res mws k.
Proof.
  unfold wrap. induction mws as [|mw rest IH] in k |- *; simpl.
  - reflexivity.
  - rewrite fold_left_app. simpl. now rewrite IH.
Qed.

Lemma deref_app_l (heap extra : Heap App) a :
  a < length heap -> deref (heap ++ extra) a = deref heap a.
Proof. intros Hlt. unfold deref, Heap in *. now rewrite lookup_app_l. Qed.

Lemma deref_fresh (heap : Heap App) items :
  deref (heap ++ [items]) (length heap) = items.
Proof.
  unfold deref, Heap in *. rewrite lookup_app_r by lia.
  now replace (length heap - length heap) with 0 by lia.
Qed.

Lemma reverse_fresh (heap : Heap App) items :
  reverse (length heap) (heap ++ [items]) = (length heap, heap ++ [rev items]).
Proof.
  unfold reverse. rewrite deref_fresh. f_equal.
  unfold Heap in *. rewrite insert_app_r_alt by lia.
  now replace (length heap - length heap) with 0 by lia.
Qed.

(** Reversing an array is visible through every reference to it; the
    loops reverse a copy. *)
Remark reverse_in_place a heap mws :
  heap !! a = Some mws ->
  snd (reverse a heap) !! a = Some (rev mws).
Proof.
  intros Ha. unfold reverse, deref. cbn [snd]. unfold Heap in *.
  rewrite Ha. cbn [default from_option id].
  apply list_lookup_insert_eq. now apply lookup_lt_Some in Ha.
Qed.

Lemma wrapReversedCopy_run req res a k (heap : Heap App) :
  wrapReversedCopy req res a k heap
  = (nest req res (deref heap a) k, heap ++ [rev (deref heap a)]).
Proof.
  unfold wrapReversedCopy, bind, slice, alloc.
  rewrite reverse_fresh. unfold elements, ret.
  now rewrite deref_fresh, wrap_rev.
Qed.

Lemma copyOf_length (mws : list (Middleware App)) :
  copyOf mws = if Nat.ltb 0 (length mws) then [rev mws] else [].
Proof. now destruct mws. Qed.

Lemma nest_nil_length req res (mws : list (Middleware App)) k :
  Nat.ltb 0 (length mws) = false -> nest req res mws k = k.
Proof. now destruct mws. Qed.

(** A matched request with a handler runs the nested chain
    global middleware, validation, route middleware, handler, and leaves
    the reversed copies behind. *)
Lemma handleRequest_chain this router route ps (handler : RequestHandler App) req res heap w :
  apiRouter this = Some router ->
  pathname (url req) <> "/openapi.json" ->
  pathname (url req) <> "/docs" ->
  resolve router req = (Some route, ps) ->
  handlers route !! toUpperCase (method req) = Some handler ->
  globalMiddleware this < length heap ->
  handleRequest this req res (heap, w)
  = let chain :=
      nest req res (deref heap (globalMiddleware this))
        (guarded route req res
           (nest req res (declared heap route) (handler req res))) in
    (Completed (fst (chain (withParams ps w))),
     (heap ++ copyOf (declared heap route)
           ++ copyOf (deref heap (globalMiddleware this)),
      snd (chain (withParams ps w)))).
Proof.
  intros Hrouter Hopen Hdocs Hres Hhandler Hglobal.
  unfold handleRequest.
  apply String.eqb_neq in Hopen. apply String.eqb_neq in Hdocs.
  rewrite Hopen, Hdocs, Hrouter, Hres.
  rewrite bind_run, onWorld_run. simpl fst. simpl snd.
  fold (withParams ps w). rewrite Hhandler.
  set (g := globalMiddleware this) in *.
  set (gl := deref heap g).
  set (h0 := handler req res).
  set (w0 := withParams ps w).
  rewrite !copyOf_length. unfold declared, guarded.
  assert (Hfinal : forall (k : BurgerNext App) (extra : Heap App),
    (n <- onHeap (len g) ;;
     finalHandler <-
       (if Nat.ltb 0 n then onHeap (wrapReversedCopy req res g k) else ret k) ;;
     r <- onWorld finalHandler ;; ret (Completed r)) (heap ++ extra, w0)
    = (Completed (fst (nest req res gl k w0)),
       (heap ++ extra ++ (if Nat.ltb 0 (length gl) then [rev gl] else []),
        snd (nest req res gl k w0)))).
  { intros k extra.
    rewrite bind_run, onHeap_run, len_run. simpl fst. simpl snd.
    rewrite deref_app_l by exact Hglobal. fold gl.
    destruct (Nat.ltb 0 (length gl)) eqn:Hgl.
    - rewrite bind_run, onHeap_run, wrapReversedCopy_run. simpl fst. simpl snd.
      rewrite deref_app_l by exact Hglobal. fold gl.
      rewrite bind_run, onWorld_run, ret_run. simpl fst. simpl snd.
      now rewrite <- app_assoc.
    - rewrite bind_run, ret_run. simpl fst. simpl snd.
      rewrite bind_run, onWorld_run, ret_run. simpl fst. simpl snd.
      rewrite (nest_nil_length _ _ gl) by exact Hgl.
      now rewrite app_nil_r. }
  destruct (middleware route) as [a|].
  - rewrite bind_run. rewrite (bind_run (onHeap (len a))).
    rewrite onHeap_run, len_run. simpl fst. simpl snd.
    destruct (Nat.ltb 0 (length (deref heap a))) eqn:Hlen.
    + rewrite onHeap_run, wrapReversedCopy_run. simpl fst. simpl snd.
      apply Hfinal.
    + rewrite ret_run. simpl fst. simpl snd.
      rewrite (nest_nil_length _ _ (deref heap a)) by exact Hlen.
      rewrite <- (app_nil_r heap) at 1. apply (Hfinal _ []).
  - rewrite bind_run, ret_run. simpl fst. simpl snd.
    rewrite <- (app_nil_r heap) at 1. apply (Hfinal _ []).
Qed.

(** ** Runs of recording middleware *)

Lemma nest_app req res (front back : list (Middleware App)) k :
  nest req res (front ++ back) k = nest req res front (nest req res back k).
Proof. induction front as [|mw front IH]; simpl; [reflexivity | now rewrite IH]. Qed.

Lemma guarded_stage route req res k :
  guarded route req res k = nest req res (observes (validationStage route req)) k.
Proof.
  unfold guarded, validationStage, createValidationMiddleware.
  destruct (schema route) as [sch|]; [|reflexivity].
  now destruct (sch !! toLowerCase (method req)).
Qed.

Lemma observe_run name g req res (next : BurgerNext App) w :
  observe name g req res next w
  = let d := decide g req res (session w) in
    match fst d with
    | Continue =>
        let inner := next {| session := snd d;
                             journal := journal w ++ [Enter name; Next name] |} in
        let a := after g (fst inner) (session (snd inner)) in
        (fst a, {| session := snd a; journal := journal (snd inner) |})
    | Respond r =>
        (r, {| session := snd d; journal := journal w ++ [Enter name] |})
    end.
Proof.
  unfold observe.
  rewrite bind_run, emit_run. cbn [fst snd].
  rewrite bind_run, lift_run. cbn [fst snd session journal].
  destruct (decide g req res (session w)) as [v s1]. cbn [fst snd].
  destruct v as [|r]; [|reflexivity].
  rewrite bind_run, emit_run. cbn [fst snd session journal].
  rewrite bind_run, lift_run. rewrite <- app_assoc. reflexivity.
Qed.

(** How far a chain of recording middleware gets: either every stage
    invokes [next] and the handler runs, or the first stage that answers
    itself ends the run. *)
Lemma nest_observes_run req res gates body w :
  let out := nest req res (observes gates) (observed body req res) w in
  journal (snd out) = journal w ++ passed (names gates) ++ [Handle]
  \/ exists pre n g post s r s',
       gates = pre ++ (n, g) :: post
       /\ decide g req res s = (Respond r, s')
       /\ journal (snd out) = journal w ++ passed (names pre) ++ [Enter n]
       /\ (Forall forwards (map snd pre) -> fst out = r /\ session (snd out) = s').
Proof.
  induction gates as [|[n g] rest IH] in w |- *; simpl.
  - left. unfold observed. now rewrite bind_run, emit_run, lift_run.
  - rewrite observe_run. simpl.
    destruct (decide g req res (session w)) as [v s1] eqn:Hdecide. simpl.
    destruct v as [|r].
    + set (w2 := {| session := s1; journal := journal w ++ [Enter n; Next n] |}).
      destruct (IH w2) as [Hall | (pre & n' & g' & post & s & r & s' & Hsplit & Hd & Hj & Hfw)].
      * left. simpl in Hall. rewrite Hall. simpl. now rewrite <- app_assoc.
      * right. exists ((n, g) :: pre), n', g', post, s, r, s'.
        split; [now rewrite Hsplit|]. split; [exact Hd|].
        split; [simpl in *; rewrite Hj; simpl; now rewrite <- app_assoc|].
        intros Hall. inversion Hall as [|? ? Hg Hpre]; subst.
        destruct (Hfw Hpre) as [Hr Hs]. simpl in *.
        rewrite Hg. simpl. now split.
    + right. exists [], n, g, rest, (session w), r, s1.
      simpl. repeat split; trivial.
Qed.

(** ** Start-up *)

Lemma push_run a (mw : Middleware App) heap mws :
  heap !! a = Some mws ->
  snd (push a mw heap) !! a = Some (mws ++ [mw]).
Proof.
  intros Ha. unfold push, deref. cbn [snd]. unfold Heap in *.
  rewrite Ha. cbn [default from_option id].
  apply list_lookup_insert_eq. now apply lookup_lt_Some in Ha.
Qed.

(** Registering middleware one by one appends them in that order. *)
Lemma forEach_addGlobalMiddleware this (added : list (Middleware App)) heap mws :
  heap !! globalMiddleware this = Some mws ->
  snd (forEach added (fun mw => addGlobalMiddleware this mw) heap)
    !! globalMiddleware this = Some (mws ++ added).
Proof.
  induction added as [|mw added IH] in heap, mws |- *; intros Hg; simpl.
  - now rewrite app_nil_r.
  - rewrite bind_run.
    rewrite (IH _ (mws ++ [mw])).
    + now rewrite <- app_assoc.
    + unfold addGlobalMiddleware. now apply push_run.
Qed.

(** The constructor allocates the global list and registers
    [options.globalMiddleware] in the order given. *)
Lemma constructor_registers_in_order (opts : ServerOptions App) heap mws :
  optGlobalMiddleware opts = Some mws ->
  let built := constructor (Schema := Schema) (PageHandler := PageHandler) opts heap in
  globalMiddleware (fst built) = length heap
  /\ snd built !! globalMiddleware (fst built) = Some mws.
Proof.
  intros Hopts. cbv zeta. unfold constructor.
  rewrite bind_run.
  change (alloc (App := App) [] heap) with (length heap, heap ++ [[]]).
  cbn [fst snd]. rewrite Hopts, bind_run, ret_run. cbn [fst snd globalMiddleware].
  split; [reflexivity|].
  match goal with |- context [addGlobalMiddleware ?b] => set (built := b) end.
  apply (forEach_addGlobalMiddleware built mws (heap ++ [[]]) []).
  cbn [built globalMiddleware]. unfold Heap in *.
  rewrite lookup_app_r by lia. now replace (length heap - length heap) with 0 by lia.
Qed.

(** [serve] installs [handleRequest] when the router exists, closed over
    the instance with its routes loaded, and the fallback otherwise. *)
Lemma serve_installs this port heap :
  fetch (fst (serve this port heap))
  = match apiRouter this with
    | Some router =>
        handleRequest {| options := options this;
                         apiRouter := Some (fst (loadRoutes router heap));
                         pageRouter := pageRouter this;
                         globalMiddleware := globalMiddleware this |}
    | None => fallback
    end.
Proof.
  unfold serve. destruct (apiRouter this) as [router|]; [|reflexivity].
  now rewrite bind_run, ret_run.
Qed.

(** ** Replies outside the chain *)

(** C6: a request outside the framework paths whose path matches no
    registered route, whatever its method, is answered at once with status
    404 and body [{ "error": "Route not found" }]; the arrays and the world
    are as before: no parameters attached, no chain built, no middleware
    run. *)
Theorem unmatched_path_is_route_not_found this router req res heap w :
  apiRouter this = Some router ->
  pathname (url req) <> "/openapi.json" ->
  pathname (url req) <> "/docs" ->
  fst (resolve router req) = None ->
  handleRequest this req res (heap, w)
  = (RouteNotFound routeNotFound, (heap, w)).
Proof.
  intros Hrouter Hopen Hdocs Hnone. unfold handleRequest.
  apply String.eqb_neq in Hopen. apply String.eqb_neq in Hdocs.
  rewrite Hopen, Hdocs, Hrouter.
  destruct (resolve router req) as [route ps]. simpl in Hnone. now subst route.
Qed.

(** C5: a request whose path matches a route that has no handler for the
    upper-cased method is answered with status 405 and body
    [{ "error": "Method Not Allowed" }]; no chain is built (the heap gains no
    array) and no middleware runs (the journal and the application state are
    as before); only [req.params] has been set. *)
Theorem unregistered_method_is_not_allowed this router route ps req res heap w :
  apiRouter this = Some router ->
  pathname (url req) <> "/openapi.json" ->
  pathname (url req) <> "/docs" ->
  resolve router req = (Some route, ps) ->
  handlers route !! toUpperCase (method req) = None ->
  handleRequest this req res (heap, w)
  = (MethodNotAllowed methodNotAllowed, (heap, withParams ps w))
  /\ journal (withParams ps w) = journal w
  /\ app (session (withParams ps w)) = app (session w)
  /\ validated (session (withParams ps w)) = validated (session w).
Proof.
  intros Hrouter Hopen Hdocs Hres Hnone. unfold handleRequest.
  apply String.eqb_neq in Hopen. apply String.eqb_neq in Hdocs.
  rewrite Hopen, Hdocs, Hrouter, Hres.
  rewrite bind_run, onWorld_run. cbn [fst snd]. rewrite Hnone.
  repeat split.
Qed.

(** C7: a request for [/openapi.json] or [/docs] is answered at once, with
    the API description or the documentation page, whatever route
    resolution would say and whatever middleware is registered: the arrays
    and the world are as before, so no middleware ran. *)
Theorem special_paths_bypass_the_pipeline this req res (m : Machine App) :
  (pathname (url req) = "/openapi.json" ->
   handleRequest this req res m
   = (match apiRouter this with
      | Some router =>
          OpenApiDocument (json (generateOpenAPIDocument router (options this)) res)
      | None => RouterNotConfigured (json notConfigured (status 500 res))
      end, m))
  /\ (pathname (url req) = "/docs" ->
      handleRequest this req res m = (SwaggerUi (html swaggerHtml res), m)).
Proof.
  unfold handleRequest. split; intros ->; simpl.
  - now destruct (apiRouter this).
  - reflexivity.
Qed.

(** C10: the handler [serve] installs never takes the branch that answers
    500 [API Router not configured]: [serve] installs it only when the
    router exists, and the router is still there when a request arrives. *)
Theorem installed_handler_never_reports_missing_router
    this port heap0 req res (m : Machine App) r :
  fst (fetch (fst (serve this port heap0)) req res m) <> RouterNotConfigured r.
Proof.
  unfold serve. destruct (apiRouter this) as [router|].
  - rewrite bind_run, ret_run. cbn [fst snd fetch].
    unfold handleRequest. cbn [apiRouter].
    destruct (String.eqb (pathname (url req)) "/openapi.json"); [discriminate|].
    destruct (String.eqb (pathname (url req)) "/docs"); [discriminate|].
    destruct (resolve _ req) as [[route|] ps]; [|discriminate].
    rewrite bind_run.
    destruct (handlers route !! toUpperCase (method req)); [|discriminate].
    rewrite !bind_run, ret_run. discriminate.
  - discriminate.
Qed.

(** ** The composed chain *)

(** C4: with a schema for the request's method, the chain that runs is the
    global middleware around the validation middleware around the route
    chain ending in the handler; with no schema for the method (the route
    has none at all, or none under this method) it is the global middleware
    around the route chain as it stands. *)
Theorem validation_sits_between_global_and_route
    this router route ps (handler : RequestHandler App) req res heap w :
  apiRouter this = Some router ->
  pathname (url req) <> "/openapi.json" ->
  pathname (url req) <> "/docs" ->
  resolve router req = (Some route, ps) ->
  handlers route !! toUpperCase (method req) = Some handler ->
  globalMiddleware this < length heap ->
  let globals := deref heap (globalMiddleware this) in
  let routeChain := nest req res (declared heap route) (handler req res) in
  let copies := copyOf (declared heap route) ++ copyOf globals in
  let ran (chain : BurgerNext App) :=
    (Completed (fst (chain (withParams ps w))),
     (heap ++ copies, snd (chain (withParams ps w)))) in
  (forall sch s,
      schema route = Some sch ->
      sch !! toLowerCase (method req) = Some s ->
      handleRequest this req res (heap, w)
      = ran (nest req res globals
               (observe "validation" (validationGate s) req res routeChain)))
  /\ ((schema route = None
       \/ exists sch, schema route = Some sch
                      /\ sch !! toLowerCase (method req) = None) ->
      handleRequest this req res (heap, w) = ran (nest req res globals routeChain)).
Proof.
  intros Hrouter Hopen Hdocs Hres Hhandler Hglobal. cbv zeta.
  rewrite (handleRequest_chain _ _ _ _ _ _ _ _ _ Hrouter Hopen Hdocs Hres Hhandler Hglobal).
  cbv zeta. unfold guarded, createValidationMiddleware. split.
  - intros sch s Hsch Hs. now rewrite Hsch, Hs.
  - intros [Hnone | (sch & Hsch & Hnone)].
    + now rewrite Hnone.
    + now rewrite Hsch, Hnone.
Qed.

(** ** Journals *)

Lemma passed_app (front back : list string) :
  passed (front ++ back) = passed front ++ passed back.
Proof. unfold passed. apply flat_map_app. Qed.

Lemma In_Next_passed n ns : In (Next n) (passed ns) <-> In n ns.
Proof.
  unfold passed. rewrite in_flat_map. split.
  - intros (m & Hm & [Heq | [Heq | []]]); [discriminate | now inversion Heq; subst].
  - intros Hn. exists n. split; [exact Hn | simpl; auto].
Qed.

Lemma In_Enter_passed n ns : In (Enter n) (passed ns) <-> In n ns.
Proof.
  unfold passed. rewrite in_flat_map. split.
  - intros (m & Hm & [Heq | [Heq | []]]); [now inversion Heq; subst | discriminate].
  - intros Hn. exists n. split; [exact Hn | simpl; auto].
Qed.

Lemma Handle_not_passed ns : ~ In Handle (passed ns).
Proof.
  unfold passed. rewrite in_flat_map.
  intros (m & _ & [Heq | [Heq | []]]); discriminate.
Qed.

Lemma count_Handle_passed ns : count_occ Event_eq_dec (passed ns) Handle = 0.
Proof. apply count_occ_not_In, Handle_not_passed. Qed.

Lemma recorded_app (w w' : World App) (tr : list Event) :
  journal w' = journal w ++ tr -> recorded w w' = tr.
Proof. unfold recorded. intros ->. apply drop_app_length. Qed.

Lemma names_app (front back : list (string * Gate App)) :
  names (front ++ back) = names front ++ names back.
Proof. apply map_app. Qed.

Lemma observes_app (front back : list (string * Gate App)) :
  observes (front ++ back) = observes front ++ observes back.
Proof. apply map_app. Qed.

(** A matched request whose middleware all record runs the chain of its
    stages. *)
Lemma handleRequest_stages this router route ps body req res heap w globals routeGates :
  apiRouter this = Some router ->
  pathname (url req) <> "/openapi.json" ->
  pathname (url req) <> "/docs" ->
  resolve router req = (Some route, ps) ->
  handlers route !! toUpperCase (method req) = Some (observed body) ->
  heap !! globalMiddleware this = Some (observes globals) ->
  declared heap route = observes routeGates ->
  let chain := nest req res (observes (stages globals route req routeGates))
                 (observed body req res) in
  fst (handleRequest this req res (heap, w)) = Completed (fst (chain (withParams ps w)))
  /\ snd (snd (handleRequest this req res (heap, w))) = snd (chain (withParams ps w)).
Proof.
  intros Hrouter Hopen Hdocs Hres Hhandler Hglobals Hroute. cbv zeta.
  assert (Hlt : globalMiddleware this < length heap).
  { unfold Heap in *. eapply lookup_lt_Some, Hglobals. }
  rewrite (handleRequest_chain _ _ _ _ _ _ _ _ _ Hrouter Hopen Hdocs Hres Hhandler Hlt).
  cbv zeta. cbn [fst snd].
  unfold stages. rewrite !observes_app, !nest_app, <- guarded_stage, <- Hroute.
  unfold deref. unfold Heap in *. rewrite Hglobals. simpl. now split.
Qed.

(** The run of a chain of recording middleware, read off the journal. *)
Lemma nest_observes_recorded req res gates body w0 w :
  journal w0 = journal w ->
  let out := nest req res (observes gates) (observed body req res) w0 in
  let tr := recorded w (snd out) in
  tr = passed (names gates) ++ [Handle]
  \/ exists pre n g post s r s',
       gates = pre ++ (n, g) :: post
       /\ decide g req res s = (Respond r, s')
       /\ tr = passed (names pre) ++ [Enter n]
       /\ (Forall forwards (map snd pre) -> fst out = r /\ session (snd out) = s').
Proof.
  intros Hj. cbv zeta.
  destruct (nest_observes_run req res gates body w0)
    as [Hall | (pre & n & g & post & s & r & s' & Hsplit & Hd & Hrun & Hfw)].
  - left. apply recorded_app. now rewrite <- Hj.
  - right. exists pre, n, g, post, s, r, s'. repeat split; trivial.
    + apply recorded_app. now rewrite <- Hj.
    + now apply Hfw.
    + now apply Hfw.
Qed.

Lemma stopped_has_no_Handle ns n : ~ In Handle (passed ns ++ [Enter n]).
Proof.
  rewrite in_app_iff. intros [Hin | [Heq | []]]; [|discriminate].
  exact (Handle_not_passed _ Hin).
Qed.

(** Under distinct names a stage occupies one place in the chain. *)
Lemma split_unique (pre pre' post post' : list (string * Gate App)) n g g' :
  NoDup (names (pre ++ (n, g) :: post)) ->
  pre ++ (n, g) :: post = pre' ++ (n, g') :: post' ->
  pre = pre' /\ g = g' /\ post = post'.
Proof.
  induction pre as [|x pre IH] in pre' |- *; intros Hnd Heq.
  - destruct pre' as [|x' pre']; simpl in *.
    + now inversion Heq.
    + inversion Heq; subst. inversion Hnd as [|? ? Hnotin _]; subst.
      exfalso. apply Hnotin. simpl. apply list_elem_of_In.
      rewrite names_app. simpl. apply in_or_app. right. now left.
  - destruct pre' as [|x' pre']; simpl in *.
    + inversion Heq; subst. inversion Hnd as [|? ? Hnotin _]; subst.
      exfalso. apply Hnotin. simpl. apply list_elem_of_In.
      rewrite names_app. simpl. apply in_or_app. right. now left.
    + inversion Heq; subst. inversion Hnd as [|? ? _ Hnd']; subst.
      destruct (IH pre' Hnd' ltac:(assumption)) as (-> & -> & ->). now repeat split.
Qed.

Lemma name_not_in_front (pre post : list (string * Gate App)) n g :
  NoDup (names (pre ++ (n, g) :: post)) -> ~ In n (names pre).
Proof.
  rewrite names_app. simpl. intros Hnd Hin.
  apply NoDup_app in Hnd as (_ & Hdisj & _).
  apply (Hdisj n); [now apply list_elem_of_In | left].
Qed.

Lemma name_not_in_back (pre post : list (string * Gate App)) n g m :
  NoDup (names (pre ++ (n, g) :: post)) ->
  In m (names post) -> ~ In m (names pre) /\ m <> n.
Proof.
  rewrite names_app. simpl. intros Hnd Hin.
  apply NoDup_app in Hnd as (_ & Hdisj & Hback).
  split.
  - intros Hpre. apply (Hdisj m); [now apply list_elem_of_In | right].
    now apply list_elem_of_In.
  - intros ->. inversion Hback as [|? ? Hnotin _]; subst.
    apply Hnotin. now apply list_elem_of_In.
Qed.

(** The run of a matched request, read off the journal: every stage
    invoked [next] and the handler ran, or the first stage that answered
    itself ended it. *)
Lemma handleRequest_recorded this router route ps body req res heap w globals routeGates :
  apiRouter this = Some router ->
  pathname (url req) <> "/openapi.json" ->
  pathname (url req) <> "/docs" ->
  resolve router req = (Some route, ps) ->
  handlers route !! toUpperCase (method req) = Some (observed body) ->
  heap !! globalMiddleware this = Some (observes globals) ->
  declared heap route = observes routeGates ->
  let out := handleRequest this req res (heap, w) in
  let tr := recorded w (snd (snd out)) in
  let gates := stages globals route req routeGates in
  tr = passed (names gates) ++ [Handle]
  \/ exists pre n g post s r s',
       gates = pre ++ (n, g) :: post
       /\ decide g req res s = (Respond r, s')
       /\ tr = passed (names pre) ++ [Enter n]
       /\ (Forall forwards (map snd pre) ->
           fst out = Completed r /\ session (snd (snd out)) = s').
Proof.
  intros Hrouter Hopen Hdocs Hres Hhandler Hglobals Hroute. cbv zeta.
  destruct (handleRequest_stages this router route ps body req res heap w
              globals routeGates Hrouter Hopen Hdocs Hres Hhandler Hglobals Hroute) as [Hfst Hsnd].
  rewrite Hfst, Hsnd.
  destruct (nest_observes_recorded req res (stages globals route req routeGates)
              body (withParams ps w) w eq_refl)
    as [Hall | (pre & n & g & post & s & r & s' & Hsplit & Hd & Htr & Hfw)].
  - now left.
  - right. exists pre, n, g, post, s, r, s'. repeat split; trivial.
    + f_equal. now apply Hfw.
    + now apply Hfw.
Qed.

(** C2, as the code has it: whenever a dispatched request reaches the
    handler, the stages ran in the order global middleware (first
    registered first), then validation, then the route's own middleware
    (first declared first), then the handler. *)
Theorem stages_run_global_validation_route_handler
    this router route ps body req res heap w globals routeGates :
  apiRouter this = Some router ->
  pathname (url req) <> "/openapi.json" ->
  pathname (url req) <> "/docs" ->
  resolve router req = (Some route, ps) ->
  handlers route !! toUpperCase (method req) = Some (observed body) ->
  heap !! globalMiddleware this = Some (observes globals) ->
  declared heap route = observes routeGates ->
  let tr := recorded w (snd (snd (handleRequest this req res (heap, w)))) in
  In Handle tr ->
  tr = passed (names globals)
       ++ passed (names (validationStage route req))
       ++ passed (names routeGates)
       ++ [Handle].
Proof.
  intros Hrouter Hopen Hdocs Hres Hhandler Hglobals Hroute. cbv zeta.
  destruct (handleRequest_recorded this router route ps body req res heap w
              globals routeGates Hrouter Hopen Hdocs Hres Hhandler Hglobals Hroute)
    as [Hall | (pre & n & g & post & s & r & s' & _ & _ & Htr & _)].
  - intros _. rewrite Hall. unfold stages.
    now rewrite !names_app, !passed_app, <- !app_assoc.
  - rewrite Htr. intros Hin. now apply stopped_has_no_Handle in Hin.
Qed.

(** C3, for middleware that invokes [next] at most once per execution:
    the handler runs exactly once if and only if every stage of the chain
    invokes [next], and never more than once; a stage that runs and does
    not invoke [next] ends the chain: no later stage and no handler runs,
    and the answer is the response that stage produced (as the stages
    before it hand back what [next] resolved to). *)
Theorem handler_runs_once_iff_every_stage_calls_next
    this router route ps body req res heap w globals routeGates :
  apiRouter this = Some router ->
  pathname (url req) <> "/openapi.json" ->
  pathname (url req) <> "/docs" ->
  resolve router req = (Some route, ps) ->
  handlers route !! toUpperCase (method req) = Some (observed body) ->
  heap !! globalMiddleware this = Some (observes globals) ->
  declared heap route = observes routeGates ->
  NoDup (names (stages globals route req routeGates)) ->
  let out := handleRequest this req res (heap, w) in
  let tr := recorded w (snd (snd out)) in
  let gates := stages globals route req routeGates in
  (count_occ Event_eq_dec tr Handle = 1
   <-> forall n, In n (names gates) -> In (Next n) tr)
  /\ count_occ Event_eq_dec tr Handle <= 1
  /\ (forall pre n g post,
        gates = pre ++ (n, g) :: post ->
        In (Enter n) tr ->
        ~ In (Next n) tr ->
        (forall m, In m (names post) -> ~ In (Enter m) tr)
        /\ ~ In Handle tr
        /\ exists s s' r,
             decide g req res s = (Respond r, s')
             /\ (Forall forwards (map snd pre) ->
                 fst out = Completed r /\ session (snd (snd out)) = s')).
Proof.
  intros Hrouter Hopen Hdocs Hres Hhandler Hglobals Hroute Hnd. cbv zeta.
  destruct (handleRequest_recorded this router route ps body req res heap w
              globals routeGates Hrouter Hopen Hdocs Hres Hhandler Hglobals Hroute)
    as [Hall | (pre1 & n1 & g1 & post1 & s & r & s' & Hsplit & Hd & Htr & Hfw)].
  - (* every stage invoked [next] *)
    rewrite Hall. rewrite count_occ_app, count_Handle_passed. simpl.
    split; [|split].
    + split; [|reflexivity]. intros _ n Hn.
      apply in_or_app. left. now apply In_Next_passed.
    + lia.
    + intros pre n g post Hsplit _ Hnot. exfalso. apply Hnot.
      apply in_or_app. left. apply In_Next_passed.
      rewrite Hsplit, names_app. simpl. apply in_or_app. right. now left.
  - (* the stage [n1] answered itself *)
    rewrite Htr. rewrite Hsplit in Hnd.
    assert (Hcount : count_occ Event_eq_dec (passed (names pre1) ++ [Enter n1]) Handle = 0).
    { apply count_occ_not_In, stopped_has_no_Handle. }
    rewrite Hcount. split; [|split].
    + split; [discriminate|]. intros Hnext. exfalso.
      assert (Hin : In (Next n1) (passed (names pre1) ++ [Enter n1])).
      { apply Hnext. rewrite Hsplit, names_app. simpl.
        apply in_or_app. right. now left. }
      apply in_app_iff in Hin as [Hin | [Heq | []]]; [|discriminate].
      apply In_Next_passed in Hin.
      exact (name_not_in_front _ _ _ _ Hnd Hin).
    + lia.
    + intros pre n g post Hsplit' Henter Hnot.
      assert (Hn : n = n1).
      { apply in_app_iff in Henter as [Hin | [Heq | []]]; [|now inversion Heq].
        exfalso. apply Hnot. apply in_or_app. left.
        apply In_Next_passed. now apply In_Enter_passed in Hin. }
      subst n. rewrite Hsplit in Hsplit'.
      destruct (split_unique _ _ _ _ _ _ _ Hnd Hsplit') as (<- & <- & <-).
      split; [|split].
      * intros m Hm Hin.
        destruct (name_not_in_back _ _ _ _ _ Hnd Hm) as [Hfront Hne].
        apply in_app_iff in Hin as [Hin | [Heq | []]].
        -- apply Hfront. now apply In_Enter_passed in Hin.
        -- apply Hne. now inversion Heq.
      * apply stopped_has_no_Handle.
      * exists s, s', r. split; [exact Hd | exact Hfw].
Qed.

(** When every stage invokes [next] the handler is reached. *)
Lemma continuing_stages_reach_the_handler
    this router route ps body req res heap w globals routeGates :
  apiRouter this = Some router ->
  pathname (url req) <> "/openapi.json" ->
  pathname (url req) <> "/docs" ->
  resolve router req = (Some route, ps) ->
  handlers route !! toUpperCase (method req) = Some (observed body) ->
  heap !! globalMiddleware this = Some (observes globals) ->
  declared heap route = observes routeGates ->
  Forall (continues req res) (map snd (stages globals route req routeGates)) ->
  recorded w (snd (snd (handleRequest this req res (heap, w))))
  = passed (names (stages globals route req routeGates)) ++ [Handle].
Proof.
  intros Hrouter Hopen Hdocs Hres Hhandler Hglobals Hroute Hall.
  destruct (handleRequest_recorded this router route ps body req res heap w
              globals routeGates Hrouter Hopen Hdocs Hres Hhandler Hglobals Hroute)
    as [Hreach | (pre & n & g & post & s & r & s' & Hsplit & Hd & _ & _)];
    [exact Hreach|].
  exfalso. rewrite Hsplit, map_app in Hall.
  apply Forall_app in Hall as [_ Hall]. simpl in Hall.
  inversion Hall as [|? ? Hg _]; subst.
  specialize (Hg s). rewrite Hd in Hg. discriminate.
Qed.

(** C1: with global middleware [A, B] and route middleware [C, D] on a
    matched route whose method has a handler, whenever the handler runs the
    stages before it were A, B, C, D in that order (with validation, where
    the route has a schema for the method, between B and C), and it does run
    when each stage invokes [next]; and when B answers without invoking
    [next], the journal ends at B's entry, so C, D and the handler never
    ran, whatever they are, and the dispatcher's response is the one B
    produced. *)
Theorem global_middleware_runs_before_route_middleware
    this router route ps (handler : RequestHandler App) req res heap w arr
    (A : Gate App) (mwB mwC mwD : Middleware App) :
  apiRouter this = Some router ->
  pathname (url req) <> "/openapi.json" ->
  pathname (url req) <> "/docs" ->
  resolve router req = (Some route, ps) ->
  handlers route !! toUpperCase (method req) = Some handler ->
  heap !! globalMiddleware this = Some [observe "A" A; mwB] ->
  middleware route = Some arr ->
  heap !! arr = Some [mwC; mwD] ->
  let out := handleRequest this req res (heap, w) in
  let tr := recorded w (snd (snd out)) in
  let full :=
    [Enter "A"; Next "A"; Enter "B"; Next "B"]
    ++ passed (names (validationStage route req))
    ++ [Enter "C"; Next "C"; Enter "D"; Next "D"; Handle] in
  (forall B C D body,
      mwB = observe "B" B ->
      mwC = observe "C" C ->
      mwD = observe "D" D ->
      handler = observed body ->
      (In Handle tr -> tr = full)
      /\ (Forall (continues req res)
                 ([A; B] ++ map snd (validationStage route req) ++ [C; D]) ->
          tr = full))
  /\ (forall answer,
        continues req res A ->
        forwards A ->
        mwB = observe "B" (replying answer) ->
        let s1 := snd (decide A req res (session (withParams ps w))) in
        tr = [Enter "A"; Next "A"; Enter "B"]
        /\ fst out = Completed (fst (answer req res s1))
        /\ session (snd (snd out)) = snd (answer req res s1)).
Proof.
  intros Hrouter Hopen Hdocs Hres Hhandler Hglobals Harr Hmws. cbv zeta. split.
  - intros B C D body -> -> -> ->.
    assert (Hroute : declared heap route = observes [("C", C); ("D", D)]).
    { unfold declared, deref. rewrite Harr. unfold Heap in *. now rewrite Hmws. }
    assert (Hgl : heap !! globalMiddleware this = Some (observes [("A", A); ("B", B)]))
      by exact Hglobals.
    assert (Hfull :
      passed (names (stages [("A", A); ("B", B)] route req [("C", C); ("D", D)]))
      ++ [Handle]
      = [Enter "A"; Next "A"; Enter "B"; Next "B"]
        ++ passed (names (validationStage route req))
        ++ [Enter "C"; Next "C"; Enter "D"; Next "D"; Handle]).
    { unfold stages. rewrite !names_app, !passed_app, <- !app_assoc. reflexivity. }
    split.
    + destruct (handleRequest_recorded this router route ps body req res heap w
                  _ _ Hrouter Hopen Hdocs Hres Hhandler Hgl Hroute)
        as [Hreach | (pre & n & g & post & s & r & s' & _ & _ & Htr & _)].
      * intros _. now rewrite Hreach.
      * rewrite Htr. intros Hin. now apply stopped_has_no_Handle in Hin.
    + intros Hall. rewrite <- Hfull.
      apply (continuing_stages_reach_the_handler this router route ps body req res
               heap w _ _ Hrouter Hopen Hdocs Hres Hhandler Hgl Hroute).
      unfold stages. rewrite !map_app. exact Hall.
  - intros answer Hcont Hfw ->.
    assert (Hlt : globalMiddleware this < length heap).
    { unfold Heap in *. eapply lookup_lt_Some, Hglobals. }
    rewrite (handleRequest_chain _ _ _ _ _ _ _ _ _
               Hrouter Hopen Hdocs Hres Hhandler Hlt).
    cbv zeta. cbn [fst snd].
    assert (Hderef : deref heap (globalMiddleware this)
                     = [observe "A" A; observe "B" (replying answer)]).
    { unfold deref. unfold Heap in *. now rewrite Hglobals. }
    rewrite !Hderef. cbn [nest].
    rewrite observe_run. cbv zeta.
    specialize (Hcont (session (withParams ps w))).
    destruct (decide A req res (session (withParams ps w))) as [v s1].
    cbn [fst snd] in *. subst v.
    rewrite observe_run. cbv zeta. cbn [decide replying session journal].
    rewrite bind_run, ret_run. cbn [fst snd session journal].
    rewrite Hfw. cbn [fst snd].
    repeat split.
    apply recorded_app. cbn [journal]. now rewrite <- app_assoc.
Qed.

(** * Further properties of the class *)

(** ** Construction and registration *)

Lemma push_fresh (heap : Heap App) (mws : list (Middleware App)) (mw : Middleware App) :
  push (length heap) mw (heap ++ [mws]) = (tt, heap ++ [mws ++ [mw]]).
Proof.
  unfold push. rewrite deref_fresh. f_equal.
  unfold Heap in *. rewrite insert_app_r_alt by lia.
  now replace (length heap - length heap) with 0 by lia.
Qed.

Lemma forEach_push_fresh (heap : Heap App) (mws added : list (Middleware App)) :
  snd (forEach added (fun mw => push (length heap) mw) (heap ++ [mws]))
  = heap ++ [mws ++ added].
Proof.
  induction added as [|mw added IH] in mws |- *; simpl.
  - now rewrite app_nil_r.
  - rewrite bind_run, push_fresh. cbn [fst snd].
    now rewrite IH, <- app_assoc.
Qed.

Lemma constructor_run (opts : ServerOptions App) heap :
  constructor (Schema := Schema) (PageHandler := PageHandler) opts heap
  = ({| options := opts;
        apiRouter :=
          match truthy (optApiDir opts) with
          | Some dir => Some {| apiDir := dir; prefix := "api"; routes := [] |}
          | None => None
          end;
        pageRouter :=
          match truthy (optPageDir opts) with
          | Some dir => Some {| pageDir := dir; pagePrefix := ""; pages := [] |}
          | None => None
          end;
        globalMiddleware := length heap |},
     heap ++ [default [] (optGlobalMiddleware opts)]).
Proof.
  unfold constructor. rewrite bind_run.
  change (alloc (App := App) [] heap) with (length heap, heap ++ [[]]).
  cbn [fst snd]. rewrite bind_run, ret_run. f_equal.
  destruct (optGlobalMiddleware opts) as [mws|]; [|reflexivity].
  unfold addGlobalMiddleware. cbn [globalMiddleware default from_option id].
  exact (forEach_push_fresh heap [] mws).
Qed.

(** The constructor allocates one fresh array for the global middleware
    and leaves every other array alone; with the calls of
    [addGlobalMiddleware] that follow, the list holds the middleware of
    [options.globalMiddleware] and then the added ones, each in the order
    given. *)
Theorem registration_accumulates_in_call_order
    (opts : ServerOptions App) heap (added : list (Middleware App)) :
  let built := constructor (Schema := Schema) (PageHandler := PageHandler) opts heap in
  globalMiddleware (fst built) = length heap
  /\ snd built = heap ++ [default [] (optGlobalMiddleware opts)]
  /\ snd (forEach added (fun mw => addGlobalMiddleware (fst built) mw) (snd built))
     = heap ++ [default [] (optGlobalMiddleware opts) ++ added].
Proof.
  cbv zeta. rewrite constructor_run. cbn [fst snd globalMiddleware].
  repeat split. unfold addGlobalMiddleware. cbn [globalMiddleware].
  apply forEach_push_fresh.
Qed.

(** Two instances never share their global middleware: registering on
    the second leaves the list of the first as it was. *)
Theorem instances_keep_their_own_global_middleware
    (first second : ServerOptions App) heap (mw : Middleware App) :
  let one := constructor (Schema := Schema) (PageHandler := PageHandler) first heap in
  let two := constructor (Schema := Schema) (PageHandler := PageHandler) second (snd one) in
  let after := snd (addGlobalMiddleware (fst two) mw (snd two)) in
  globalMiddleware (fst one) <> globalMiddleware (fst two)
  /\ deref after (globalMiddleware (fst one)) = default [] (optGlobalMiddleware first)
  /\ deref after (globalMiddleware (fst two))
     = default [] (optGlobalMiddleware second) ++ [mw].
Proof.
  cbv zeta. rewrite !constructor_run. cbn [fst snd globalMiddleware].
  unfold addGlobalMiddleware. cbn [globalMiddleware].
  rewrite push_fresh. cbn [snd].
  split; [|split].
  - rewrite length_app. simpl. lia.
  - rewrite deref_app_l by (rewrite length_app; simpl; lia).
    apply deref_fresh.
  - apply deref_fresh.
Qed.

(** ** Serving without an API directory *)

(** Without [apiDir], or with an empty one, the instance has no API
    router: [serve] hands the server no routes table, also when a page
    directory was configured and its pages were loaded, and the handler it
    installs answers every request, whatever its path and method, with the
    200 greeting, touching neither the arrays nor the world. *)
Theorem no_api_directory_serves_only_the_greeting
    (opts : ServerOptions App) heap port :
  optApiDir opts = None \/ optApiDir opts = Some "" ->
  let built := constructor opts heap in
  let started := serve (fst built) port (snd built) in
  staticRoutes (fst started) = None
  /\ forall req res (m : Machine App),
       fetch (fst started) req res m
       = (Greeting {| code := 200;
                      payload := JsonBody (JObject [("message",
                                   JString "Hello from burger-api!")]) |}, m).
Proof.
  intros Hdir. cbv zeta. rewrite constructor_run. cbn [fst snd].
  assert (Hnone : truthy (optApiDir opts) = None)
    by (destruct Hdir as [-> | ->]; reflexivity).
  unfold serve. cbn [apiRouter]. rewrite Hnone, ret_run. cbn [fst snd staticRoutes fetch].
  repeat split.
Qed.

(** ** Page routes *)

(** The routes table maps a path to the handler of the last page that
    has it, and holds nothing for a path no page has. *)
Theorem last_page_with_a_path_wins (pr : PageRouter PageHandler) (p : string) :
  pageRoutes (Some pr) !! p
  = pageHandler <$> List.find (fun page => String.eqb (pagePath page) p)
                      (rev (pages (loadPages pr))).
Proof.
  unfold pageRoutes. generalize (pages (loadPages pr)). intros l.
  induction l as [|page l IH] using rev_ind.
  - simpl. apply lookup_empty.
  - rewrite fold_left_app, rev_unit. simpl.
    destruct (String.eqb_spec (pagePath page) p) as [-> | Hne].
    + simpl. apply lookup_insert_eq.
    + rewrite lookup_insert_ne by exact Hne. exact IH.
Qed.

(** ** What the installed handler never does *)

(** The router the handler dereferences with [this.apiRouter!] is always
    there: the handler [serve] installs never fails on it, and never
    answers with the greeting of the fallback. *)
Theorem installed_handler_always_finds_its_router
    this port heap0 req res (m : Machine App) :
  fst (fetch (fst (serve this port heap0)) req res m) <> TypeError
  /\ (is_Some (apiRouter this) ->
      forall r, fst (fetch (fst (serve this port heap0)) req res m) <> Greeting r).
Proof.
  unfold serve. destruct (apiRouter this) as [router|].
  - rewrite bind_run, ret_run. cbn [fst snd fetch].
    unfold handleRequest. cbn [apiRouter].
    destruct (String.eqb (pathname (url req)) "/openapi.json");
      [split; [discriminate | intros _ x; discriminate]|].
    destruct (String.eqb (pathname (url req)) "/docs");
      [split; [discriminate | intros _ x; discriminate]|].
    destruct (resolve _ req) as [[route|] ps];
      [|split; [discriminate | intros _ x; discriminate]].
    rewrite bind_run.
    destruct (handlers route !! toUpperCase (method req));
      [|split; [discriminate | intros _ x; discriminate]].
    rewrite !bind_run, ret_run. split; [discriminate | intros _ x; discriminate].
  - split; [discriminate|]. intros [x Hx]. discriminate Hx.
Qed.

(** The reply is decided by the path, the resolution and the handler
    table alone: each kind of reply tells which of them held, whatever
    middleware is registered and whatever state the request finds. *)
Theorem reply_tells_the_branch this router req res heap w :
  apiRouter this = Some router ->
  match fst (handleRequest this req res (heap, w)) with
  | OpenApiDocument r =>
      pathname (url req) = "/openapi.json"
      /\ r = json (generateOpenAPIDocument router (options this)) res
  | SwaggerUi r =>
      pathname (url req) = "/docs" /\ r = html swaggerHtml res
  | RouteNotFound r =>
      pathname (url req) <> "/openapi.json" /\ pathname (url req) <> "/docs"
      /\ fst (resolve router req) = None /\ r = routeNotFound
  | MethodNotAllowed r =>
      pathname (url req) <> "/openapi.json" /\ pathname (url req) <> "/docs"
      /\ (exists route, fst (resolve router req) = Some route
                        /\ handlers route !! toUpperCase (method req) = None)
      /\ r = methodNotAllowed
  | Completed r =>
      pathname (url req) <> "/openapi.json" /\ pathname (url req) <> "/docs"
      /\ exists route (handler : RequestHandler App),
           fst (resolve router req) = Some route
           /\ handlers route !! toUpperCase (method req) = Some handler
  | RouterNotConfigured _ | Greeting _ | TypeError => False
  end.
Proof.
  intros Hrouter. unfold handleRequest. rewrite Hrouter.
  destruct (String.eqb_spec (pathname (url req)) "/openapi.json") as [Hopen|Hopen];
    [now split|].
  destruct (String.eqb_spec (pathname (url req)) "/docs") as [Hdocs|Hdocs];
    [now split|].
  destruct (resolve router req) as [[route|] ps] eqn:Hres; [|now repeat split].
  rewrite bind_run.
  destruct (handlers route !! toUpperCase (method req)) as [handler|] eqn:Hhandler.
  - rewrite !bind_run, ret_run. cbn [fst].
    split; [exact Hopen|]. split; [exact Hdocs|]. now exists route, handler.
  - cbn [fst ret]. split; [exact Hopen|]. split; [exact Hdocs|].
    split; [now exists route | reflexivity].
Qed.

(** ** Requests that reach the chain *)

(** With no global middleware, no middleware on the route and no schema
    for the method, the reply is the handler's own response, computed with
    [req.params] set to the resolved parameters, and no array is
    allocated. *)
Theorem bare_route_answers_with_the_handler
    this router route ps (handler : RequestHandler App) req res heap w :
  apiRouter this = Some router ->
  pathname (url req) <> "/openapi.json" ->
  pathname (url req) <> "/docs" ->
  resolve router req = (Some route, ps) ->
  handlers route !! toUpperCase (method req) = Some handler ->
  heap !! globalMiddleware this = Some [] ->
  declared heap route = [] ->
  validationStage route req = [] ->
  handleRequest this req res (heap, w)
  = (Completed (fst (handler req res (withParams ps w))),
     (heap, snd (handler req res (withParams ps w))))
  /\ params (session (withParams ps w)) = Some ps.
Proof.
  intros Hrouter Hopen Hdocs Hres Hhandler Hglobals Hroute Hstage.
  assert (Hlt : globalMiddleware this < length heap).
  { unfold Heap in *. eapply lookup_lt_Some, Hglobals. }
  rewrite (handleRequest_chain _ _ _ _ _ _ _ _ _ Hrouter Hopen Hdocs Hres Hhandler Hlt).
  cbv zeta. rewrite guarded_stage, Hstage, Hroute.
  assert (Hderef : deref heap (globalMiddleware this) = []).
  { unfold deref. unfold Heap in *. now rewrite Hglobals. }
  rewrite Hderef. cbn [nest observes map copyOf app]. rewrite app_nil_r.
  now split.
Qed.

(** A middleware registered after the handler was installed takes part
    in the requests that follow: the handler reads the list on every
    request, and the newcomer runs after the middleware registered before
    it and before validation, the route's middleware and the handler. *)
Theorem late_registration_reaches_later_requests
    this router route ps (handler : RequestHandler App) req res heap w
    (mw : Middleware App) mws :
  apiRouter this = Some router ->
  pathname (url req) <> "/openapi.json" ->
  pathname (url req) <> "/docs" ->
  resolve router req = (Some route, ps) ->
  handlers route !! toUpperCase (method req) = Some handler ->
  heap !! globalMiddleware this = Some mws ->
  let later := snd (addGlobalMiddleware this mw heap) in
  fst (handleRequest this req res (later, w))
  = Completed
      (fst (nest req res mws
              (mw req res
                 (guarded route req res
                    (nest req res (declared later route) (handler req res))))
              (withParams ps w))).
Proof.
  intros Hrouter Hopen Hdocs Hres Hhandler Hglobals. cbv zeta.
  pose proof (push_run _ mw _ _ Hglobals) as Hlater.
  fold (addGlobalMiddleware this mw) in Hlater.
  set (later := snd (addGlobalMiddleware this mw heap)) in *.
  assert (Hlt : globalMiddleware this < length later).
  { unfold Heap in *. eapply lookup_lt_Some, Hlater. }
  rewrite (handleRequest_chain _ _ _ _ _ _ _ _ _ Hrouter Hopen Hdocs Hres Hhandler Hlt).
  cbv zeta. cbn [fst].
  assert (Hderef : deref later (globalMiddleware this) = mws ++ [mw]).
  { unfold deref. unfold Heap in *. now rewrite Hlater. }
  now rewrite Hderef, nest_app.
Qed.

(** ** Method names *)

Lemma upper_is_not_lower (c : ascii) : isLower (upper c) = false.
Proof.
  destruct c as [b0 b1 b2 b3 b4 b5 b6 b7].
  destruct b0, b1, b2, b3, b4, b5, b6, b7; reflexivity.
Qed.

Lemma toUpperCase_has_no_lower (s : string) : hasLower (toUpperCase s) = false.
Proof.
  induction s as [|c s IH]; simpl; [reflexivity|].
  now rewrite upper_is_not_lower, IH.
Qed.

(** Handlers are looked up under the upper-cased method, so a handler
    stored under a name with a lower-case letter is never dispatched: a
    route all of whose handlers are so named answers 405 to every
    method. *)
Theorem lower_case_handler_names_are_never_dispatched
    this router route ps req res heap w :
  apiRouter this = Some router ->
  pathname (url req) <> "/openapi.json" ->
  pathname (url req) <> "/docs" ->
  resolve router req = (Some route, ps) ->
  (forall key (handler : RequestHandler App),
      handlers route !! key = Some handler -> hasLower key = true) ->
  handleRequest this req res (heap, w)
  = (MethodNotAllowed methodNotAllowed, (heap, withParams ps w)).
Proof.
  intros Hrouter Hopen Hdocs Hres Hnames. unfold handleRequest.
  apply String.eqb_neq in Hopen. apply String.eqb_neq in Hdocs.
  rewrite Hopen, Hdocs, Hrouter, Hres.
  rewrite bind_run, onWorld_run. cbn [fst snd].
  destruct (handlers route !! toUpperCase (method req)) as [handler|] eqn:Hhandler;
    [|reflexivity].
  apply Hnames in Hhandler. rewrite toUpperCase_has_no_lower in Hhandler.
  discriminate.
Qed.

(** ** From the options to the request *)

(** The middleware given as [options.globalMiddleware] is what every
    matched request of the served instance runs first, in the order given,
    provided loading the routes only allocates arrays. *)
Theorem options_middleware_runs_on_every_matched_request
    (opts : ServerOptions App) dir heap port extra route ps
    (handler : RequestHandler App) req res w :
  let built := constructor opts heap in
  let started := serve (fst built) port (snd built) in
  let router :=
    fst (loadRoutes {| apiDir := dir; prefix := "api"; routes := [] |} (snd built)) in
  optApiDir opts = Some dir ->
  dir <> "" ->
  snd started = snd built ++ extra ->
  pathname (url req) <> "/openapi.json" ->
  pathname (url req) <> "/docs" ->
  resolve router req = (Some route, ps) ->
  handlers route !! toUpperCase (method req) = Some handler ->
  fst (fetch (fst started) req res (snd started, w))
  = Completed
      (fst (nest req res (default [] (optGlobalMiddleware opts))
              (guarded route req res
                 (nest req res (declared (snd started) route) (handler req res)))
              (withParams ps w))).
Proof.
  cbv zeta. rewrite constructor_run. cbn [fst snd].
  intros Hdir Hne Hextra Hopen Hdocs Hres Hhandler.
  assert (Htruthy : truthy (optApiDir opts) = Some dir).
  { rewrite Hdir. unfold truthy. apply String.eqb_neq in Hne. now rewrite Hne. }
  revert Hextra. rewrite serve_installs. unfold serve. cbn [apiRouter pageRouter options
    globalMiddleware]. rewrite Htruthy. rewrite bind_run, ret_run. cbn [fst snd].
  intros Hextra. rewrite Hextra.
  set (gl := default [] (optGlobalMiddleware opts)) in *.
  set (this := {| options := opts; apiRouter := Some _; pageRouter := _;
                  globalMiddleware := length heap |}).
  assert (Hlt : globalMiddleware this < length ((heap ++ [gl]) ++ extra)).
  { cbn [this globalMiddleware]. rewrite !length_app. simpl. lia. }
  rewrite (handleRequest_chain this _ route ps handler req res _ w
             eq_refl Hopen Hdocs Hres Hhandler Hlt).
  cbv zeta. cbn [fst this globalMiddleware].
  rewrite (deref_app_l (heap ++ [gl]) extra (length heap))
    by (rewrite length_app; simpl; lia).
  now rewrite deref_fresh.
Qed.

(** ** Arrays a request leaves behind *)


End Properties.

(** * Arrays within reach of the chain *)

Section Reach.

Context {U Schema PageHandler : Type}.
Context {env : Collaborators (Reachable.Shared U) Schema PageHandler}.
Context (code : Reachable.Fn -> Middleware (Reachable.Shared U)).

Implicit Types (this : Burger (Reachable.Shared U) Schema PageHandler).
Implicit Types (router : ApiRouter (Reachable.Shared U) Schema).
Implicit Types (route : RouteDefinition (Reachable.Shared U) Schema).
Implicit Types (req earlier : BurgerRequest) (res : BurgerResponse) (ps : Params).
Implicit Types (w : World (Reachable.Shared U)).
Implicit Types (k next : BurgerNext (Reachable.Shared U)).
Implicit Types (arrs before after more : list (list Reachable.Fn)).
Implicit Types (fns : list Reachable.Fn) (f : Reachable.Fn).

(** ** Running the array operations *)

Lemma arraysOf_setArrays arrs w :
  Reachable.arraysOf (Reachable.setArrays arrs w) = arrs.
Proof. reflexivity. Qed.

Lemma setArrays_setArrays arrs more w :
  Reachable.setArrays arrs (Reachable.setArrays more w) = Reachable.setArrays arrs w.
Proof. reflexivity. Qed.

Lemma setArrays_arraysOf w : Reachable.setArrays (Reachable.arraysOf w) w = w.
Proof. now destruct w as [[? ? []] ?]. Qed.

Lemma onArrays_run {A : Type} (op : ST (list (list Reachable.Fn)) A) w :
  Reachable.onArrays op w
  = (fst (op (Reachable.arraysOf w)),
     Reachable.setArrays (snd (op (Reachable.arraysOf w))) w).
Proof. unfold Reachable.onArrays. now destruct (op (Reachable.arraysOf w)). Qed.

Lemma reachable_deref_app_l arrs more a :
  a < length arrs -> Reachable.deref (arrs ++ more) a = Reachable.deref arrs a.
Proof. intros Hlt. unfold Reachable.deref. now rewrite lookup_app_l. Qed.

Lemma reachable_deref_fresh arrs fns :
  Reachable.deref (arrs ++ [fns]) (length arrs) = fns.
Proof.
  unfold Reachable.deref. rewrite lookup_app_r by lia.
  now replace (length arrs - length arrs) with 0 by lia.
Qed.

Lemma reachable_reverse_fresh arrs fns :
  Reachable.reverse (length arrs) (arrs ++ [fns]) = (length arrs, arrs ++ [rev fns]).
Proof.
  unfold Reachable.reverse. rewrite reachable_deref_fresh. f_equal.
  rewrite insert_app_r_alt by lia.
  now replace (length arrs - length arrs) with 0 by lia.
Qed.

Lemma slice_run a arrs :
  Reachable.slice a arrs = (length arrs, arrs ++ [Reachable.deref arrs a]).
Proof. reflexivity. Qed.

Lemma reachable_wrap_rev req res fns k :
  Reachable.wrap code req res (rev fns) k = nest req res (map code fns) k.
Proof.
  unfold Reachable.wrap. induction fns as [|f rest IH] in k |- *; simpl.
  - reflexivity.
  - rewrite fold_left_app. simpl. now rewrite IH.
Qed.

(** The loop over [a.slice().reverse()] allocates one array, the reversed
    copy, and nests the middleware of [a] in the order [a] holds them. *)
Lemma reachable_wrapReversedCopy_run req res a k w :
  Reachable.wrapReversedCopy code req res a k w
  = (nest req res (map code (Reachable.deref (Reachable.arraysOf w) a)) k,
     Reachable.setArrays
       (Reachable.arraysOf w ++ [rev (Reachable.deref (Reachable.arraysOf w) a)]) w).
Proof.
  unfold Reachable.wrapReversedCopy.
  rewrite bind_run, onArrays_run, slice_run. cbn [fst snd].
  rewrite bind_run, onArrays_run, arraysOf_setArrays, reachable_reverse_fresh.
  cbn [fst snd]. rewrite setArrays_setArrays.
  rewrite bind_run, onArrays_run, arraysOf_setArrays. unfold Reachable.elements.
  cbn [fst snd]. rewrite reachable_deref_fresh, setArrays_setArrays, ret_run.
  now rewrite reachable_wrap_rev.
Qed.

(** Stage 1 and stage 3 of the composition: one reversed copy for a
    non-empty list, nothing for an empty one. *)
Lemma reachable_stage_run req res a k w :
  (n <- Reachable.onArrays (Reachable.len a) ;;
   if Nat.ltb 0 n then Reachable.wrapReversedCopy code req res a k else ret k) w
  = (nest req res (map code (Reachable.deref (Reachable.arraysOf w) a)) k,
     Reachable.setArrays
       (Reachable.arraysOf w
          ++ Reachable.copyOf (Reachable.deref (Reachable.arraysOf w) a)) w).
Proof.
  rewrite bind_run, onArrays_run. unfold Reachable.len. cbn [fst snd].
  rewrite setArrays_arraysOf.
  destruct (Reachable.deref (Reachable.arraysOf w) a) as [|f rest] eqn:Ha.
  - cbn. now rewrite app_nil_r, setArrays_arraysOf.
  - cbn [length Nat.ltb Nat.leb]. rewrite reachable_wrapReversedCopy_run.
    now rewrite Ha.
Qed.

Lemma reachable_stage_then {A : Type} req res a k
    (rest : BurgerNext (Reachable.Shared U) -> M (Reachable.Shared U) A) w :
  (n <- Reachable.onArrays (Reachable.len a) ;;
   chain <- (if Nat.ltb 0 n then Reachable.wrapReversedCopy code req res a k
             else ret k) ;;
   rest chain) w
  = rest (nest req res (map code (Reachable.deref (Reachable.arraysOf w) a)) k)
      (Reachable.setArrays
         (Reachable.arraysOf w
            ++ Reachable.copyOf (Reachable.deref (Reachable.arraysOf w) a)) w).
Proof.
  rewrite bind_run, onArrays_run. unfold Reachable.len. cbn [fst snd].
  rewrite setArrays_arraysOf.
  destruct (Reachable.deref (Reachable.arraysOf w) a) as [|f rest'] eqn:Ha.
  - cbn. now rewrite app_nil_r, setArrays_arraysOf.
  - cbn [length Nat.ltb Nat.leb]. rewrite bind_run, reachable_wrapReversedCopy_run.
    now rewrite Ha.
Qed.

Lemma arraysOf_withParams ps w :
  Reachable.arraysOf (withParams ps w) = Reachable.arraysOf w.
Proof. reflexivity. Qed.

(** A matched request with a handler allocates the reversed copies, the
    route's first, and then runs the nested chain: global middleware,
    validation, route middleware, handler. *)
Lemma reachable_handleRequest_run this router route ps
    (handler : RequestHandler (Reachable.Shared U)) req res w :
  apiRouter this = Some router ->
  pathname (url req) <> "/openapi.json" ->
  pathname (url req) <> "/docs" ->
  resolve router req = (Some route, ps) ->
  handlers route !! toUpperCase (method req) = Some handler ->
  Reachable.handleRequest code this req res w
  = let arrs := Reachable.arraysOf w in
    let routeFns := Reachable.declared arrs route in
    let globals :=
      Reachable.deref (arrs ++ Reachable.copyOf routeFns) (globalMiddleware this) in
    let chain :=
      nest req res (map code globals)
        (guarded route req res
           (nest req res (map code routeFns) (handler req res))) in
    let w1 :=
      Reachable.setArrays
        (arrs ++ Reachable.copyOf routeFns ++ Reachable.copyOf globals)
        (withParams ps w) in
    (Completed (fst (chain w1)), snd (chain w1)).
Proof.
  intros Hrouter Hopen Hdocs Hres Hhandler.
  unfold Reachable.handleRequest.
  apply String.eqb_neq in Hopen. apply String.eqb_neq in Hdocs.
  rewrite Hopen, Hdocs, Hrouter, Hres.
  rewrite bind_run. fold (withParams ps w). rewrite Hhandler.
  cbv zeta. unfold Reachable.declared, guarded.
  rewrite bind_run.
  destruct (middleware route) as [a|].
  - rewrite reachable_stage_run. cbn [fst snd].
    rewrite reachable_stage_then, arraysOf_setArrays, setArrays_setArrays.
    rewrite bind_run, ret_run, arraysOf_withParams. cbn [fst snd].
    now rewrite <- app_assoc.
  - rewrite ret_run. cbn [fst snd].
    rewrite reachable_stage_then, bind_run, ret_run, arraysOf_withParams.
    cbn [fst snd Reachable.copyOf]. now rewrite !app_nil_r.
Qed.

(** ** Code that leaves the arrays as they are *)

Lemma extends_refl arrs : Reachable.extends arrs arrs.
Proof. now intros a fns. Qed.

Lemma extends_trans before arrs after :
  Reachable.extends before arrs -> Reachable.extends arrs after ->
  Reachable.extends before after.
Proof. intros H1 H2 a fns Ha. now apply H2, H1. Qed.

Lemma extends_app arrs more : Reachable.extends arrs (arrs ++ more).
Proof. intros a fns Ha. now apply lookup_app_l_Some. Qed.

Lemma extends_deref before after a :
  Reachable.extends before after -> a < length before ->
  Reachable.deref after a = Reachable.deref before a.
Proof.
  intros Hext Hlt. unfold Reachable.deref, Ref.
  destruct (lookup_lt_is_Some_2 before a Hlt) as [fns Ha].
  now rewrite (Hext _ _ Ha), Ha.
Qed.

Lemma keeps_ret {A : Type} (a : A) : Reachable.keeps (U := U) (ret a).
Proof. intros w. apply extends_refl. Qed.

Lemma keeps_bind {A B : Type} (c : M (Reachable.Shared U) A)
    (rest : A -> M (Reachable.Shared U) B) :
  Reachable.keeps c -> (forall a, Reachable.keeps (rest a)) ->
  Reachable.keeps (bind c rest).
Proof.
  intros Hc Hrest w. rewrite bind_run.
  eapply extends_trans; [apply Hc | apply Hrest].
Qed.

Lemma keeps_emit (e : Event) : Reachable.keeps (U := U) (emit e).
Proof. intros w. apply extends_refl. Qed.

Lemma keeps_setValidated (data : Json) :
  Reachable.keeps (U := U) (lift (setValidated data)).
Proof. intros w. apply extends_refl. Qed.

Lemma lift_bind {A B : Type} (u : User (Reachable.Shared U) A)
    (rest : A -> User (Reachable.Shared U) B) w :
  lift (bind u rest) w = bind (lift u) (fun a => lift (rest a)) w.
Proof.
  rewrite bind_run, !lift_run, bind_run. reflexivity.
Qed.

(** A recording middleware keeps the arrays when its gate does. *)
Lemma observe_keeps (name : string) (g : Gate (Reachable.Shared U)) req res next :
  Reachable.keeps (lift (decide g req res)) ->
  (forall r, Reachable.keeps (lift (after g r))) ->
  Reachable.keeps next ->
  Reachable.keeps (observe name g req res next).
Proof.
  intros Hdecide Hafter Hnext. unfold observe.
  apply keeps_bind; [apply keeps_emit|]. intros _.
  apply keeps_bind; [apply Hdecide|]. intros [|r].
  - apply keeps_bind; [apply keeps_emit|]. intros _.
    apply keeps_bind; [apply Hnext|]. intros r. apply Hafter.
  - apply keeps_ret.
Qed.

Lemma observe_respectful (name : string) (g : Gate (Reachable.Shared U)) :
  (forall req res, Reachable.keeps (lift (decide g req res))) ->
  (forall r, Reachable.keeps (lift (after g r))) ->
  Reachable.respectful (observe name g).
Proof. intros Hdecide Hafter req res next. now apply observe_keeps. Qed.

Lemma observed_keeps
    (body : BurgerRequest -> BurgerResponse -> User (Reachable.Shared U) Response)
    req res :
  Reachable.keeps (lift (body req res)) -> Reachable.keeps (observed body req res).
Proof.
  intros Hbody. unfold observed.
  apply keeps_bind; [apply keeps_emit|]. now intros _.
Qed.

(** A chain of middleware that keep the arrays, around a continuation that
    keeps them, keeps them. *)
Lemma nest_keeps req res fns k :
  (forall f, In f fns -> Reachable.respectful (code f)) ->
  Reachable.keeps k ->
  Reachable.keeps (nest req res (map code fns) k).
Proof.
  intros Hfns Hk. induction fns as [|f rest IH]; simpl.
  - exact Hk.
  - apply Hfns; [now left|]. apply IH. intros f' Hin. apply Hfns. now right.
Qed.

(** The validation stage keeps the arrays when the validator does. *)
Lemma guarded_keeps route req res k :
  (forall s, Reachable.keeps (lift (validate s req))) ->
  Reachable.keeps k ->
  Reachable.keeps (guarded route req res k).
Proof.
  intros Hvalidate Hk. unfold guarded.
  destruct (schema route) as [sch|]; [|exact Hk].
  unfold createValidationMiddleware.
  destruct (sch !! toLowerCase (method req)) as [s|]; [|exact Hk].
  apply observe_keeps; [| |exact Hk].
  - intros w. unfold validationGate, decide. rewrite lift_bind. revert w.
    apply keeps_bind; [apply Hvalidate|]. intros [data|errors] w.
    + rewrite lift_bind. revert w.
      apply keeps_bind; [apply keeps_setValidated|]. intros _ w.
      apply extends_refl.
    + apply extends_refl.
  - intros r w. apply extends_refl.
Qed.

Lemma In_deref_copy arrs fns a f :
  In f (Reachable.deref (arrs ++ Reachable.copyOf fns) a) ->
  In f (Reachable.deref arrs a) \/ In f fns.
Proof.
  destruct (Nat.lt_ge_cases a (length arrs)) as [Hlt|Hge].
  - rewrite reachable_deref_app_l by exact Hlt. now left.
  - destruct fns as [|f' rest].
    + cbn [Reachable.copyOf]. rewrite app_nil_r. now left.
    + cbn [Reachable.copyOf]. generalize (f' :: rest). intros fns.
      unfold Reachable.deref, Ref. rewrite lookup_app_r by lia.
      destruct (a - length arrs) as [|n]; cbn.
      * intros Hin. right. now apply in_rev.
      * intros [].
Qed.

(** A request whose middleware, validator and handler leave the arrays as
    they are leaves them as they are: the dispatcher itself writes to its
    copies only. *)
Lemma tame_request_extends this req res w :
  Reachable.tame code this req res (Reachable.arraysOf w) ->
  Reachable.extends (Reachable.arraysOf w)
    (Reachable.arraysOf (snd (Reachable.handleRequest code this req res w))).
Proof.
  intros (Hglobals & Hroute & Hvalidate).
  destruct (String.eqb (pathname (url req)) "/openapi.json") eqn:Hopen.
  { unfold Reachable.handleRequest. rewrite Hopen.
    destruct (apiRouter this); apply extends_refl. }
  destruct (String.eqb (pathname (url req)) "/docs") eqn:Hdocs.
  { unfold Reachable.handleRequest. rewrite Hopen, Hdocs. apply extends_refl. }
  destruct (apiRouter this) as [router|] eqn:Hrouter.
  2:{ unfold Reachable.handleRequest. rewrite Hopen, Hdocs, Hrouter.
      apply extends_refl. }
  destruct (resolve router req) as [[route|] ps] eqn:Hres.
  2:{ unfold Reachable.handleRequest. rewrite Hopen, Hdocs, Hrouter, Hres.
      apply extends_refl. }
  destruct (handlers route !! toUpperCase (method req)
            : option (RequestHandler (Reachable.Shared U))) as [handler|] eqn:Hhandler.
  2:{ unfold Reachable.handleRequest. rewrite Hopen, Hdocs, Hrouter, Hres.
      rewrite bind_run, Hhandler. apply extends_refl. }
  apply String.eqb_neq in Hopen. apply String.eqb_neq in Hdocs.
  rewrite (reachable_handleRequest_run _ _ _ _ _ _ _ _ Hrouter Hopen Hdocs Hres Hhandler).
  cbv zeta. cbn [snd].
  destruct (Hroute _ _ _ eq_refl Hres) as [Hfns Hhandlers].
  eapply extends_trans; [|apply nest_keeps].
  - rewrite arraysOf_setArrays. apply extends_app.
  - intros f Hin. apply In_deref_copy in Hin as [Hin|Hin]; auto.
  - apply guarded_keeps; [exact Hvalidate|].
    apply nest_keeps; [exact Hfns|]. now apply Hhandlers.
Qed.

(** C9: the dispatcher's own steps write to no middleware list.  Whenever
    the middleware, the validator and the handler a request can run leave
    the arrays as they are, every array that existed before the request —
    the global list, each route's list — is there after it with the same
    elements in the same order: the in-place reverse acts on copies. *)
Theorem dispatcher_writes_only_to_its_copies this req res w :
  Reachable.tame code this req res (Reachable.arraysOf w) ->
  let after :=
    Reachable.arraysOf (snd (Reachable.handleRequest code this req res w)) in
  Reachable.extends (Reachable.arraysOf w) after
  /\ (forall a, a < length (Reachable.arraysOf w) ->
        Reachable.deref after a = Reachable.deref (Reachable.arraysOf w) a).
Proof.
  intros Htame. cbv zeta.
  pose proof (tame_request_extends this req res w Htame) as Hext.
  split; [exact Hext|]. intros a Hlt. now apply extends_deref.
Qed.

(** Requests whose code leaves the arrays as they are do not disturb one
    another's chains: after such an earlier request, a request runs the
    global middleware and the route's middleware as the arrays held them
    before, in the same order. *)
Theorem earlier_requests_leave_the_chain_as_it_was
    this router route ps (handler : RequestHandler (Reachable.Shared U))
    req res earlier (res' : BurgerResponse) w :
  apiRouter this = Some router ->
  pathname (url req) <> "/openapi.json" ->
  pathname (url req) <> "/docs" ->
  resolve router req = (Some route, ps) ->
  handlers route !! toUpperCase (method req) = Some handler ->
  globalMiddleware this < length (Reachable.arraysOf w) ->
  (forall a, middleware route = Some a -> a < length (Reachable.arraysOf w)) ->
  Reachable.tame code this earlier res' (Reachable.arraysOf w) ->
  let w' := snd (Reachable.handleRequest code this earlier res' w) in
  let arrs := Reachable.arraysOf w in
  let chain := Reachable.chainOf code arrs this route handler req res in
  let w1 :=
    Reachable.setArrays
      (Reachable.arraysOf w'
         ++ Reachable.copyOf (Reachable.declared arrs route)
         ++ Reachable.copyOf (Reachable.deref arrs (globalMiddleware this)))
      (withParams ps w') in
  Reachable.handleRequest code this req res w'
  = (Completed (fst (chain w1)), snd (chain w1)).
Proof.
  intros Hrouter Hopen Hdocs Hres Hhandler Hglobal Hroute Htame. cbv zeta.
  pose proof (tame_request_extends this earlier res' w Htame) as Hext.
  set (w' := snd (Reachable.handleRequest code this earlier res' w)) in *.
  assert (Hlen : length (Reachable.arraysOf w) <= length (Reachable.arraysOf w')).
  { destruct (Nat.le_gt_cases (length (Reachable.arraysOf w))
                (length (Reachable.arraysOf w'))) as [|Hgt]; [assumption|].
    destruct (Reachable.arraysOf w) as [|fns rest] eqn:Harrs using rev_ind;
      [simpl; lia|].
    rewrite length_app in *. cbn [length] in *.
    pose proof (Hext (length rest) fns) as Hlast.
    rewrite lookup_app_r, Nat.sub_diag in Hlast by lia.
    specialize (Hlast eq_refl). apply lookup_lt_Some in Hlast. lia. }
  rewrite (reachable_handleRequest_run _ _ _ _ _ _ _ _ Hrouter Hopen Hdocs Hres Hhandler).
  cbv zeta.
  assert (Hdeclared : Reachable.declared (Reachable.arraysOf w') route
                      = Reachable.declared (Reachable.arraysOf w) route).
  { unfold Reachable.declared. destruct (middleware route) as [a|] eqn:Ha; [|reflexivity].
    apply extends_deref; [exact Hext|]. now apply Hroute. }
  rewrite Hdeclared, reachable_deref_app_l by lia.
  rewrite (extends_deref _ _ _ Hext Hglobal).
  reflexivity.
Qed.

End Reach.

(** ** The theorems at work on the product API *)

Ltac evaluated :=
  first [ reflexivity
        | cbn; discriminate
        | vm_compute; reflexivity ].

(** C6 on the product API: [GET /api/items] matches no route. *)
Lemma unmatched_path_is_route_not_found_witness :
  Demo.handle Demo.burger (Demo.request "GET" "/api/items") Demo.res0
    (Demo.heapABCD (Demo.logger "B"), Demo.idle)
  = (RouteNotFound routeNotFound, (Demo.heapABCD (Demo.logger "B"), Demo.idle)).
Proof.
  apply (unmatched_path_is_route_not_found
           Demo.burger Demo.router); evaluated.
Defined.

(** C5 on the product API: the product route has no [PUT] handler. *)
Lemma unregistered_method_is_not_allowed_witness :
  Demo.handle Demo.burger (Demo.request "put" "/api/products/42") Demo.res0
    (Demo.heapABCD (Demo.logger "B"), Demo.idle)
  = (MethodNotAllowed methodNotAllowed,
     (Demo.heapABCD (Demo.logger "B"), withParams [("id", "42")] Demo.idle)).
Proof.
  apply (unregistered_method_is_not_allowed
           Demo.burger Demo.router Demo.productRoute); evaluated.
Defined.

(** C4 on the product API: a [get] request runs the validation gate
    between [A, B] and [C, D]; a [post] request, for which the route has no
    schema, runs [A, B] around [C, D] directly. *)
Lemma validation_sits_between_global_and_route_witness :
  (let req := Demo.get42 in
   let heap := Demo.heapABCD (Demo.logger "B") in
   let chain :=
     nest req Demo.res0 (deref heap 0)
       (observe "validation" (validationGate (env := Demo.collaborators) Demo.idSchema)
          req Demo.res0
          (nest req Demo.res0 (deref heap 1)
             (observed Demo.product req Demo.res0))) in
   fst (Demo.handle Demo.burger req Demo.res0 (heap, Demo.idle))
   = Completed (fst (chain (withParams [("id", "42")] Demo.idle))))
  /\ (let req := Demo.post42 in
      let heap := Demo.heapABCD (Demo.logger "B") in
      let chain :=
        nest req Demo.res0 (deref heap 0)
          (nest req Demo.res0 (deref heap 1)
             (observed Demo.create req Demo.res0)) in
      fst (Demo.handle Demo.burger req Demo.res0 (heap, Demo.idle))
      = Completed (fst (chain (withParams [("id", "42")] Demo.idle)))).
Proof.
  split; cbv zeta.
  - pose proof (validation_sits_between_global_and_route (env := Demo.collaborators)
             Demo.burger Demo.router Demo.productRoute [("id", "42")]
             (observed Demo.product) Demo.get42 Demo.res0
             (Demo.heapABCD (Demo.logger "B")) Demo.idle
             ltac:(evaluated) ltac:(evaluated) ltac:(evaluated) ltac:(evaluated)
             ltac:(evaluated) ltac:(vm_compute; lia)) as [Hwith _].
    cbv zeta in Hwith.
    exact (f_equal fst (Hwith _ Demo.idSchema eq_refl eq_refl)).
  - pose proof (validation_sits_between_global_and_route (env := Demo.collaborators)
             Demo.burger Demo.router Demo.productRoute [("id", "42")]
             (observed Demo.create) Demo.post42 Demo.res0
             (Demo.heapABCD (Demo.logger "B")) Demo.idle
             ltac:(evaluated) ltac:(evaluated) ltac:(evaluated) ltac:(evaluated)
             ltac:(evaluated) ltac:(vm_compute; lia)) as [_ Hwithout].
    cbv zeta in Hwithout.
    refine (f_equal fst (Hwithout _)).
    right. eexists. split; evaluated.
Defined.

(** C1 on the product API: with [A, B] global and [C, D] on the route the
    journal of a [get] request reads A, B, validation, C, D, handler; with
    a B that answers 401 without invoking [next] it ends at B's entry and
    the response is B's. *)
Lemma global_middleware_runs_before_route_middleware_witness :
  recorded Demo.idle
    (snd (snd (Demo.handle Demo.burger Demo.get42 Demo.res0
                 (Demo.heapABCD (Demo.logger "B"), Demo.idle))))
  = [Enter "A"; Next "A"; Enter "B"; Next "B";
     Enter "validation"; Next "validation";
     Enter "C"; Next "C"; Enter "D"; Next "D"; Handle]
  /\ recorded Demo.idle
       (snd (snd (Demo.handle Demo.burger Demo.post42 Demo.res0
                    (Demo.heapABCD (Demo.logger "B"), Demo.idle))))
     = [Enter "A"; Next "A"; Enter "B"; Next "B";
        Enter "C"; Next "C"; Enter "D"; Next "D"; Handle]
  /\ recorded Demo.idle
       (snd (snd (Demo.handle Demo.burger Demo.get42 Demo.res0
                    (Demo.heapABCD Demo.blocker, Demo.idle))))
     = [Enter "A"; Next "A"; Enter "B"]
  /\ fst (Demo.handle Demo.burger Demo.get42 Demo.res0
            (Demo.heapABCD Demo.blocker, Demo.idle))
     = Completed Demo.unauthorized.
Proof.
  split; [|split].
  - pose proof (global_middleware_runs_before_route_middleware (env := Demo.collaborators)
             Demo.burger Demo.router Demo.productRoute [("id", "42")]
             (observed Demo.product) Demo.get42 Demo.res0
             (Demo.heapABCD (Demo.logger "B")) Demo.idle 1 (Demo.logger "A")
             _ _ _
             ltac:(evaluated) ltac:(evaluated) ltac:(evaluated) ltac:(evaluated)
             ltac:(evaluated) ltac:(evaluated) ltac:(evaluated) ltac:(evaluated))
      as [Horder _].
    cbv zeta in Horder.
    destruct (Horder (Demo.logger "B") (Demo.logger "Product Detail Middleware")
                (Demo.logger "D") Demo.product eq_refl eq_refl eq_refl eq_refl)
      as [Hreached _].
    apply Hreached. vm_compute. tauto.
  - pose proof (global_middleware_runs_before_route_middleware (env := Demo.collaborators)
             Demo.burger Demo.router Demo.productRoute [("id", "42")]
             (observed Demo.create) Demo.post42 Demo.res0
             (Demo.heapABCD (Demo.logger "B")) Demo.idle 1 (Demo.logger "A")
             _ _ _
             ltac:(evaluated) ltac:(evaluated) ltac:(evaluated) ltac:(evaluated)
             ltac:(evaluated) ltac:(evaluated) ltac:(evaluated) ltac:(evaluated))
      as [Horder _].
    cbv zeta in Horder.
    destruct (Horder (Demo.logger "B") (Demo.logger "Product Detail Middleware")
                (Demo.logger "D") Demo.create eq_refl eq_refl eq_refl eq_refl)
      as [_ Hall].
    apply Hall. repeat constructor.
  - pose proof (global_middleware_runs_before_route_middleware (env := Demo.collaborators)
             Demo.burger Demo.router Demo.productRoute [("id", "42")]
             (observed Demo.product) Demo.get42 Demo.res0
             (Demo.heapABCD Demo.blocker) Demo.idle 1 (Demo.logger "A")
             _ _ _
             ltac:(evaluated) ltac:(evaluated) ltac:(evaluated) ltac:(evaluated)
             ltac:(evaluated) ltac:(evaluated) ltac:(evaluated) ltac:(evaluated))
      as [_ Hstop].
    cbv zeta in Hstop.
    destruct (Hstop (fun _ res => ret (json (JObject [("error", JString "Unauthorized")])
                                            (status 401 res)))
                ltac:(intros s; reflexivity) ltac:(intros r s; reflexivity) eq_refl)
      as (Htr & Hreply & _).
    split; [exact Htr | exact Hreply].
Defined.

(** C2 on the product API: the [get] request reaches the handler, and the
    stages before it are the global ones, validation, then the route's. *)
Lemma stages_run_global_validation_route_handler_witness :
  recorded Demo.idle
    (snd (snd (Demo.handle Demo.burger Demo.get42 Demo.res0
                 (Demo.heapABCD (Demo.logger "B"), Demo.idle))))
  = passed ["A"; "B"] ++ passed ["validation"] ++ passed ["C"; "D"] ++ [Handle].
Proof.
  apply (stages_run_global_validation_route_handler
           Demo.burger Demo.router Demo.productRoute [("id", "42")]
           Demo.product Demo.get42 Demo.res0
           (Demo.heapABCD (Demo.logger "B")) Demo.idle
           [("A", Demo.logger "A"); ("B", Demo.logger "B")]
           [("C", Demo.logger "Product Detail Middleware"); ("D", Demo.logger "D")]
           ltac:(evaluated) ltac:(evaluated) ltac:(evaluated) ltac:(evaluated)
           ltac:(evaluated) ltac:(evaluated) ltac:(evaluated)).
  vm_compute. tauto.
Defined.

(** C2 as stated fails: on the [get] request of the product API the
    handler is reached, and the global middleware A and B ran first, the
    route's C and D last; the order route, validation, global is not what
    the journal shows. *)
Lemma route_middleware_does_not_run_first :
  let tr := recorded Demo.idle
              (snd (snd (Demo.handle Demo.burger Demo.get42 Demo.res0
                           (Demo.heapABCD (Demo.logger "B"), Demo.idle)))) in
  In Handle tr
  /\ tr = [Enter "A"; Next "A"; Enter "B"; Next "B";
           Enter "validation"; Next "validation";
           Enter "C"; Next "C"; Enter "D"; Next "D"; Handle]
  /\ tr <> [Enter "C"; Next "C"; Enter "D"; Next "D";
            Enter "validation"; Next "validation";
            Enter "A"; Next "A"; Enter "B"; Next "B"; Handle]
  /\ app (session (snd (snd (Demo.handle Demo.burger Demo.get42 Demo.res0
                               (Demo.heapABCD (Demo.logger "B"), Demo.idle)))))
     = ["A"; "B"; "Product Detail Middleware"; "D";
        "[GET] Product Detail route invoked"].
Proof.
  cbv zeta. split; [|split; [|split]].
  - vm_compute. tauto.
  - vm_compute. reflexivity.
  - vm_compute. discriminate.
  - vm_compute. reflexivity.
Qed.

(** C3 on the product API: with loggers throughout the handler runs
    exactly once; with a B that answers itself it does not run, nor do C
    and D, and the response is B's. *)
Lemma handler_runs_once_iff_every_stage_calls_next_witness :
  count_occ Event_eq_dec
    (recorded Demo.idle
       (snd (snd (Demo.handle Demo.burger Demo.get42 Demo.res0
                    (Demo.heapABCD (Demo.logger "B"), Demo.idle)))))
    Handle = 1
  /\ (let out := Demo.handle Demo.burger Demo.get42 Demo.res0
                   (Demo.heapABCD Demo.blocker, Demo.idle) in
      ~ In Handle (recorded Demo.idle (snd (snd out)))
      /\ ~ In (Enter "C") (recorded Demo.idle (snd (snd out)))
      /\ ~ In (Enter "D") (recorded Demo.idle (snd (snd out)))
      /\ fst out = Completed Demo.unauthorized).
Proof.
  split; cbv zeta.
  - pose proof (handler_runs_once_iff_every_stage_calls_next (env := Demo.collaborators)
             Demo.burger Demo.router Demo.productRoute [("id", "42")]
             Demo.product Demo.get42 Demo.res0
             (Demo.heapABCD (Demo.logger "B")) Demo.idle
             [("A", Demo.logger "A"); ("B", Demo.logger "B")]
             [("C", Demo.logger "Product Detail Middleware"); ("D", Demo.logger "D")]
             ltac:(evaluated) ltac:(evaluated) ltac:(evaluated) ltac:(evaluated)
             ltac:(evaluated) ltac:(evaluated) ltac:(evaluated)
             ltac:(apply (@bool_decide_unpack _ (NoDup_dec _)); vm_compute; exact I))
      as [Hiff _].
    cbv zeta in Hiff. apply Hiff.
    intros n Hn. vm_compute in Hn.
    destruct Hn as [<-|[<-|[<-|[<-|[<-|[]]]]]]; vm_compute; tauto.
  - pose proof (handler_runs_once_iff_every_stage_calls_next (env := Demo.collaborators)
             Demo.burger Demo.router Demo.productRoute [("id", "42")]
             Demo.product Demo.get42 Demo.res0
             (Demo.heapABCD Demo.blocker) Demo.idle
             [("A", Demo.logger "A"); ("B", Demo.blocker)]
             [("C", Demo.logger "Product Detail Middleware"); ("D", Demo.logger "D")]
             ltac:(evaluated) ltac:(evaluated) ltac:(evaluated) ltac:(evaluated)
             ltac:(evaluated) ltac:(evaluated) ltac:(evaluated)
             ltac:(apply (@bool_decide_unpack _ (NoDup_dec _)); vm_compute; exact I))
      as (_ & _ & Hstop).
    cbv zeta in Hstop.
    destruct (Hstop [("A", Demo.logger "A")] "B" Demo.blocker
                [("validation", validationGate (env := Demo.collaborators) Demo.idSchema);
                 ("C", Demo.logger "Product Detail Middleware"); ("D", Demo.logger "D")]
                ltac:(evaluated)
                ltac:(vm_compute; tauto)
                ltac:(vm_compute; intuition discriminate))
      as (Hlater & Hhandle & s & s' & r & Hdecide & Hanswer).
    split; [exact Hhandle|].
    split; [apply Hlater; vm_compute; tauto|].
    split; [apply Hlater; vm_compute; tauto|].
    destruct Hanswer as [Hreply _]; [repeat constructor|].
    refine (eq_trans Hreply _). f_equal.
    unfold Demo.blocker, replying in Hdecide. cbn [decide] in Hdecide.
    rewrite bind_run, !ret_run in Hdecide. cbn [fst snd] in Hdecide.
    now inversion Hdecide.
Defined.

(** C3 as stated fails for a middleware that invokes [next] twice: on the
    product API with the global middleware [retry] every middleware in the
    chain invokes [next], and the handler runs twice. *)
Lemma retrying_middleware_runs_the_handler_twice :
  let tr := recorded Demo.idle
              (snd (snd (Demo.handle Demo.burger Demo.post42 Demo.res0
                           (Demo.heapRetry, Demo.idle)))) in
  tr = [Enter "retry"; Next "retry"; Handle; Next "retry"; Handle]
  /\ In (Next "retry") tr
  /\ count_occ Event_eq_dec tr Handle = 2
  /\ ~ (count_occ Event_eq_dec tr Handle = 1 <-> In (Next "retry") tr).
Proof.
  cbv zeta. split; [|split; [|split]].
  - vm_compute. reflexivity.
  - vm_compute. tauto.
  - vm_compute. reflexivity.
  - intros [_ Honce].
    assert (Hin : In (Next "retry")
                    (recorded Demo.idle
                       (snd (snd (Demo.handle Demo.burger Demo.post42 Demo.res0
                                    (Demo.heapRetry, Demo.idle))))))
      by (vm_compute; tauto).
    apply Honce in Hin. vm_compute in Hin. discriminate.
Qed.

(** C8 fails on the code: a [Burger] built without [apiDir] installs the
    fallback handler, so [/openapi.json] and [/docs] are answered with the
    200 greeting, not with a 500 response that explains the missing
    configuration. *)
Lemma description_without_router_is_the_greeting :
  let opts := {| optApiDir := None; optPageDir := None;
                 optGlobalMiddleware := None |} in
  let built := constructor (App := Demo.App) (Schema := Demo.Schema) (PageHandler := unit) opts [] in
  let server := fst (Demo.start (fst built) 4000 (snd built)) in
  let hello := {| code := 200;
                  payload := JsonBody (JObject [("message", JString "Hello from burger-api!")]) |} in
  apiRouter (fst built) = None
  /\ fst (fetch server (Demo.request "GET" "/openapi.json") Demo.res0 (snd built, Demo.idle))
     = Greeting hello
  /\ fst (fetch server (Demo.request "GET" "/docs") Demo.res0 (snd built, Demo.idle))
     = Greeting hello.
Proof. cbv zeta. repeat split. Qed.

(** ** The further properties at work on the product API *)

(** An instance built with an empty [apiDir] and a page directory: it has
    a page router, and yet the server gets no routes table and greets. *)
Lemma no_api_directory_serves_only_the_greeting_witness :
  let built := constructor (Schema := Demo.Schema) (PageHandler := unit)
                 Demo.pagesOnly [] in
  let started := Demo.start (fst built) 4000 (snd built) in
  is_Some (pageRouter (fst built))
  /\ staticRoutes (fst started) = None
  /\ fetch (fst started) Demo.get42 Demo.res0 (snd built, Demo.idle)
     = (Greeting {| code := 200;
                    payload := JsonBody (JObject [("message",
                                 JString "Hello from burger-api!")]) |},
        (snd built, Demo.idle)).
Proof.
  cbv zeta.
  pose proof (no_api_directory_serves_only_the_greeting (env := Demo.collaborators)
                Demo.pagesOnly [] 4000 (or_intror eq_refl)) as (Hroutes & Hfetch).
  split; [eexists; reflexivity|].
  split; [exact Hroutes | apply Hfetch].
Defined.

(** The 405 of [PUT /api/products/42] tells that the path resolved to a
    route without a [PUT] handler. *)
Lemma reply_tells_the_branch_witness :
  exists route,
    fst (resolveBySegments Demo.router (Demo.request "put" "/api/products/42"))
    = Some route
    /\ handlers route !! "PUT" = None.
Proof.
  pose proof (reply_tells_the_branch (env := Demo.collaborators)
                Demo.burger Demo.router (Demo.request "put" "/api/products/42")
                Demo.res0 Demo.heapBare Demo.idle eq_refl) as Hreply.
  destruct Hreply as (_ & _ & Hroute & _). exact Hroute.
Defined.

(** [POST /api/products/42] with no middleware anywhere: the reply is the
    handler's. *)
Lemma bare_route_answers_with_the_handler_witness :
  Demo.handle Demo.burger Demo.post42 Demo.res0 (Demo.heapBare, Demo.idle)
  = (Completed (fst (observed Demo.create Demo.post42 Demo.res0
                       (withParams [("id", "42")] Demo.idle))),
     (Demo.heapBare,
      snd (observed Demo.create Demo.post42 Demo.res0
             (withParams [("id", "42")] Demo.idle)))).
Proof.
  apply (bare_route_answers_with_the_handler (env := Demo.collaborators)
           Demo.burger Demo.router Demo.productRoute [("id", "42")]
           (observed Demo.create) Demo.post42 Demo.res0 Demo.heapBare Demo.idle
           ltac:(evaluated) ltac:(evaluated) ltac:(evaluated) ltac:(evaluated)
           ltac:(evaluated) ltac:(evaluated) ltac:(evaluated) ltac:(evaluated)).
Defined.

(** A middleware E registered when [A, B] are in place runs after B. *)
Lemma late_registration_reaches_later_requests_witness :
  let heap := Demo.heapABCD (Demo.logger "B") in
  let later := snd (addGlobalMiddleware Demo.burger
                      (observe "E" (Demo.logger "E")) heap) in
  fst (Demo.handle Demo.burger Demo.post42 Demo.res0 (later, Demo.idle))
  = Completed
      (fst (nest Demo.post42 Demo.res0
              [observe "A" (Demo.logger "A"); observe "B" (Demo.logger "B")]
              (observe "E" (Demo.logger "E") Demo.post42 Demo.res0
                 (guarded (env := Demo.collaborators) Demo.productRoute
                    Demo.post42 Demo.res0
                    (nest Demo.post42 Demo.res0 (declared later Demo.productRoute)
                       (observed Demo.create Demo.post42 Demo.res0))))
              (withParams [("id", "42")] Demo.idle))).
Proof.
  cbv zeta.
  apply (late_registration_reaches_later_requests (env := Demo.collaborators)
           Demo.burger Demo.router Demo.productRoute [("id", "42")]
           (observed Demo.create) Demo.post42 Demo.res0
           (Demo.heapABCD (Demo.logger "B")) Demo.idle
           (observe "E" (Demo.logger "E"))
           [observe "A" (Demo.logger "A"); observe "B" (Demo.logger "B")]
           ltac:(evaluated) ltac:(evaluated) ltac:(evaluated) ltac:(evaluated)
           ltac:(evaluated) ltac:(evaluated)).
Defined.

(** A route module exporting [get] answers 405 to a [get] request. *)
Lemma lower_case_handler_names_are_never_dispatched_witness :
  handleRequest (env := Demo.collaborators) Demo.lowerBurger
    (Demo.request "get" "/api/lower") Demo.res0 (Demo.heapBare, Demo.idle)
  = (MethodNotAllowed methodNotAllowed, (Demo.heapBare, withParams [] Demo.idle)).
Proof.
  apply (lower_case_handler_names_are_never_dispatched (env := Demo.collaborators)
           Demo.lowerBurger
           {| apiDir := "api"; prefix := "api"; routes := [Demo.lowerRoute] |}
           Demo.lowerRoute [] (Demo.request "get" "/api/lower") Demo.res0
           Demo.heapBare Demo.idle
           ltac:(evaluated) ltac:(evaluated) ltac:(evaluated) ltac:(evaluated)).
  intros key handler Hkey. unfold Demo.lowerRoute in Hkey. cbn [handlers] in Hkey.
  apply lookup_insert_Some in Hkey as [[<- _] | [_ Hkey]]; [reflexivity|].
  rewrite lookup_empty in Hkey. discriminate.
Defined.

(** [new Burger({ apiDir: "api", globalMiddleware: [A, B] })], served with
    a loader that imports the product route: a [post] request runs A, B,
    then the route's C, D. *)
Lemma options_middleware_runs_on_every_matched_request_witness :
  let built := constructor (Schema := Demo.Schema) (PageHandler := unit)
                 Demo.withGlobals [] in
  let started := serve (env := Demo.importingCollaborators) (fst built) 4000 (snd built) in
  recorded Demo.idle
    (snd (snd (fetch (fst started) Demo.post42 Demo.res0 (snd started, Demo.idle))))
  = [Enter "A"; Next "A"; Enter "B"; Next "B";
     Enter "C"; Next "C"; Enter "D"; Next "D"; Handle]
  /\ fst (fetch (fst started) Demo.post42 Demo.res0 (snd started, Demo.idle))
     = Completed
         (fst (nest Demo.post42 Demo.res0
                 [observe "A" (Demo.logger "A"); observe "B" (Demo.logger "B")]
                 (guarded (env := Demo.importingCollaborators) Demo.productRoute
                    Demo.post42 Demo.res0
                    (nest Demo.post42 Demo.res0
                       (declared (snd started) Demo.productRoute)
                       (observed Demo.create Demo.post42 Demo.res0)))
                 (withParams [("id", "42")] Demo.idle))).
Proof.
  cbv zeta. split; [vm_compute; reflexivity|].
  apply (options_middleware_runs_on_every_matched_request
           (env := Demo.importingCollaborators)
           Demo.withGlobals "api" [] 4000
           [[observe "C" (Demo.logger "Product Detail Middleware");
             observe "D" (Demo.logger "D")]]
           Demo.productRoute [("id", "42")] (observed Demo.create)
           Demo.post42 Demo.res0 Demo.idle
           ltac:(evaluated) ltac:(evaluated) ltac:(evaluated) ltac:(evaluated)
           ltac:(evaluated) ltac:(evaluated) ltac:(evaluated)).
Defined.

(** ** The theorems at work on an API whose middleware registers middleware *)

(** Middleware that only call [next], a validator that accepts and the
    [pong] handler leave the arrays as they are. *)
Lemma quiet_code_is_tame (arrs : list (list Reachable.Fn)) :
  Reachable.tame (env := Registrar.collaborators) Registrar.quiet
    Registrar.burger Registrar.ping Registrar.res0 arrs.
Proof.
  assert (Hquiet : forall f, Reachable.respectful (Registrar.quiet f)).
  { intros f. apply observe_respectful.
    - intros req res w. apply extends_refl.
    - intros r w. apply extends_refl. }
  split; [|split].
  - intros f _. apply Hquiet.
  - intros router route ps Hrouter Hres. injection Hrouter as <-.
    vm_compute in Hres. injection Hres as <- _.
    split; [intros f _; apply Hquiet|].
    intros handler Hhandler. vm_compute in Hhandler. injection Hhandler as <-.
    intros w. apply extends_refl.
  - intros s w. apply extends_refl.
Qed.

(** C9 on the registering API with middleware that only call [next]: the
    global list [A, B] and the route's [C, D] read as before, and the
    request left the two reversed copies behind. *)
Lemma dispatcher_writes_only_to_its_copies_witness :
  let after :=
    Reachable.arraysOf
      (snd (Registrar.handle Registrar.quiet Registrar.burger Registrar.ping
              Registrar.res0 Registrar.idle)) in
  Reachable.deref after 0 = ["A"; "B"]
  /\ Reachable.deref after 1 = ["C"; "D"]
  /\ after = [["A"; "B"]; ["C"; "D"]; ["D"; "C"]; ["B"; "A"]].
Proof.
  cbv zeta.
  pose proof (dispatcher_writes_only_to_its_copies (env := Registrar.collaborators)
                Registrar.quiet Registrar.burger Registrar.ping Registrar.res0
                Registrar.idle (quiet_code_is_tame _)) as [_ Hsame].
  split; [|split].
  - apply (Hsame 0). vm_compute. lia.
  - apply (Hsame 1). vm_compute. lia.
  - vm_compute. reflexivity.
Defined.

(** C9 as stated fails: the global middleware A calls
    [addGlobalMiddleware] while the [GET /api/ping] request is served.  The
    request is dispatched and answered by the handler; the global list,
    [A, B] before, is [A, B, E] after; and the next request runs A, B and
    then E. *)
Lemma registering_middleware_changes_the_global_list :
  let out := Registrar.handle Registrar.code Registrar.burger Registrar.ping
               Registrar.res0 Registrar.idle in
  let before := Reachable.arraysOf Registrar.idle in
  let after := Reachable.arraysOf (snd out) in
  fst out = Completed {| code := 200;
                         payload := JsonBody (JObject [("message", JString "pong")]) |}
  /\ recorded Registrar.idle (snd out)
     = [Enter "A"; Next "A"; Enter "B"; Next "B";
        Enter "validation"; Next "validation";
        Enter "C"; Next "C"; Enter "D"; Next "D"; Handle]
  /\ Reachable.deref before (globalMiddleware Registrar.burger) = ["A"; "B"]
  /\ Reachable.deref after (globalMiddleware Registrar.burger) = ["A"; "B"; "E"]
  /\ ~ Reachable.extends before after
  /\ recorded (snd out)
       (snd (Registrar.handle Registrar.code Registrar.burger Registrar.ping
               Registrar.res0 (snd out)))
     = [Enter "A"; Next "A"; Enter "B"; Next "B"; Enter "E"; Next "E";
        Enter "validation"; Next "validation";
        Enter "C"; Next "C"; Enter "D"; Next "D"; Handle].
Proof.
  cbv zeta. repeat split; try (vm_compute; reflexivity).
  intros Hext. specialize (Hext 0 ["A"; "B"] eq_refl).
  vm_compute in Hext. discriminate.
Qed.

(** After a first [GET /api/ping] whose middleware only call [next], the
    next one composes its chain from the lists [A, B] and [C, D] as they
    were. *)
Lemma earlier_requests_leave_the_chain_as_it_was_witness :
  let w' := snd (Registrar.handle Registrar.quiet Registrar.burger Registrar.ping
                   Registrar.res0 Registrar.idle) in
  let chain :=
    Reachable.chainOf (env := Registrar.collaborators) Registrar.quiet
      [["A"; "B"]; ["C"; "D"]] Registrar.burger Registrar.pingRoute
      (observed Registrar.pong) Registrar.ping Registrar.res0 in
  let w1 := Reachable.setArrays
              (Reachable.arraysOf w' ++ [["D"; "C"]] ++ [["B"; "A"]])
              (withParams [] w') in
  Registrar.handle Registrar.quiet Registrar.burger Registrar.ping Registrar.res0 w'
  = (Completed (fst (chain w1)), snd (chain w1)).
Proof.
  cbv zeta.
  refine (earlier_requests_leave_the_chain_as_it_was
            (env := Registrar.collaborators) Registrar.quiet
            Registrar.burger Registrar.router Registrar.pingRoute []
            (observed Registrar.pong) Registrar.ping Registrar.res0
            Registrar.ping Registrar.res0 Registrar.idle
            ltac:(evaluated) ltac:(evaluated) ltac:(evaluated) ltac:(evaluated)
            ltac:(evaluated) ltac:(vm_compute; lia) _ (quiet_code_is_tame _)).
  intros a Ha. injection Ha as <-. vm_compute. lia.
Defined.
